(** * Product API (src/index.js): a shallow embedding and its properties

    The Express application of [src/index.js] keeps an in-memory array of
    product objects and serves seven routes over it.  This file embeds the
    middleware, the handlers and the routing table as Rocq functions and
    proves (or refutes) the statements of the specification about them.

    Conventions of the embedding:
    - a JavaScript string is a [string] (a sequence of 8-bit characters);
      [toLowerCase] folds the ASCII letters only and [parseInt] skips the
      ASCII white space only, as JavaScript does on strings of ASCII
      characters: a statement that depends on the letters or on the white
      space of a string asks for the string to be [ascii_only];
    - a JSON number is an integer [Z] (the handlers only test a number for
      being zero and for its type, and print it when it is used as a key);
      [parseInt] and the arithmetic on its results are exact, as they are
      in JavaScript up to [max_safe] (2^53 - 1): a statement that depends
      on the value of a parsed number bounds it;
    - a JavaScript object is a finite map from property names to values;
      the order of the properties of an object is not observed;
    - [req.query] maps a parameter name to the string given for it (a
      parameter given once, without the bracket syntax of the qs parser);
    - the path of a request is the list of its non-empty segments;
    - [uuidv4()] is an input of the request being served;
    - a thrown [TypeError] is caught by Express and handed to the global
      error handler (the last [app.use] of the file);
    - [handle] serves a request whose body [express.json()] accepted;
      [serve] is the application with the body parser in front. *)

From Stdlib Require Import ZArith Ascii String List Bool Lia.
From stdpp Require Import base option list gmap strings pretty.

Local Open Scope string_scope.
Local Open Scope Z_scope.

(** ** JavaScript values as produced by [express.json()] *)

#[local] Unset Elimination Schemes.
Inductive JValue : Type :=
  | JNull
  | JBool (b : bool)
  | JNum (z : Z)
  | JStr (s : string)
  | JArr (l : list JValue)
  | JObj (m : gmap string JValue).
#[local] Set Elimination Schemes.

(** A property read yields [undefined] when the property is absent: the
    result of a read is an [option JValue], [None] being [undefined]. *)
Abbreviation JObject := (gmap string JValue).
Abbreviation Product := (gmap string JValue).
Abbreviation Store := (list (gmap string JValue)).

(** [!v]: undefined, null, false, 0 and the empty string are falsy. *)
Definition truthy (v : option JValue) : bool :=
  match v with
  | None => false
  | Some JNull => false
  | Some (JBool b) => b
  | Some (JNum z) => negb (z =? 0)
  | Some (JStr s) => negb (String.eqb s "")
  | Some (JArr _) => true
  | Some (JObj _) => true
  end.

Definition falsy (v : option JValue) : bool := negb (truthy v).

(** [typeof v]. *)
Inductive JType := TUndefined | TObject | TBoolean | TNumber | TString.

Definition typeof (v : option JValue) : JType :=
  match v with
  | None => TUndefined
  | Some JNull => TObject
  | Some (JBool _) => TBoolean
  | Some (JNum _) => TNumber
  | Some (JStr _) => TString
  | Some (JArr _) => TObject
  | Some (JObj _) => TObject
  end.

Definition JType_eqb (a b : JType) : bool :=
  match a, b with
  | TUndefined, TUndefined | TObject, TObject | TBoolean, TBoolean
  | TNumber, TNumber | TString, TString => true
  | _, _ => false
  end.

(** [v === s] for a string [s]: no coercion, so only a string can be equal. *)
Definition strict_eq_str (v : option JValue) (s : string) : bool :=
  match v with
  | Some (JStr t) => String.eqb t s
  | _ => false
  end.

(** ** Strings: [toLowerCase], [includes], [parseInt] *)

Definition lower_ascii (c : ascii) : ascii :=
  let n := nat_of_ascii c in
  if (Nat.leb 65 n && Nat.leb n 90)%bool then ascii_of_nat (n + 32) else c.

Fixpoint toLowerCase (s : string) : string :=
  match s with
  | EmptyString => EmptyString
  | String c r => String (lower_ascii c) (toLowerCase r)
  end.

(** [s.includes(q)]: [q] occurs in [s] at some position. *)
Fixpoint includes (s q : string) : bool :=
  String.prefix q s ||
  match s with
  | EmptyString => false
  | String _ r => includes r q
  end.

(** White space skipped by [parseInt] (the one-byte StrWhiteSpaceChar). *)
Definition is_space (c : ascii) : bool :=
  let n := nat_of_ascii c in
  (Nat.leb 9 n && Nat.leb n 13)%bool || Nat.eqb n 32.

Fixpoint trimStart (s : string) : string :=
  match s with
  | EmptyString => EmptyString
  | String c r => if is_space c then trimStart r else s
  end.

(** The value of a character as a digit, in any radix up to 36. *)
Definition digit_of (c : ascii) : option Z :=
  let n := nat_of_ascii c in
  if (Nat.leb 48 n && Nat.leb n 57)%bool then Some (Z.of_nat (n - 48))
  else if (Nat.leb 97 n && Nat.leb n 122)%bool then Some (Z.of_nat (n - 87))
  else if (Nat.leb 65 n && Nat.leb n 90)%bool then Some (Z.of_nat (n - 55))
  else None.

(** The longest prefix of digits of the radix; [None] when it is empty. *)
Fixpoint parse_digits (radix : Z) (s : string) (acc : option Z) : option Z :=
  match s with
  | EmptyString => acc
  | String c r =>
      match digit_of c with
      | Some d =>
          if d <? radix
          then parse_digits radix r (Some (radix * default 0 acc + d))
          else acc
      | None => acc
      end
  end.

(** [parseInt(s)] with no radix argument; [None] is NaN.  The result is
    the exact integer, which is the result of JavaScript up to [2^53]. *)
Definition parseInt (s : string) : option Z :=
  let s1 := trimStart s in
  let '(sign, s2) :=
    match s1 with
    | String "-" r => (-1, r)
    | String "+" r => (1, r)
    | _ => (1, s1)
    end in
  let '(radix, s3) :=
    match s2 with
    | String "0" (String "x" r) => (16, r)
    | String "0" (String "X" r) => (16, r)
    | _ => (10, s2)
    end in
  Z.mul sign <$> parse_digits radix s3 None.

(** Arithmetic on numbers that may be NaN. *)
Definition num_sub (a b : option Z) : option Z :=
  x ← a; y ← b; Some (x - y).
Definition num_mul (a b : option Z) : option Z :=
  x ← a; y ← b; Some (x * y).
Definition num_add (a b : option Z) : option Z :=
  x ← a; y ← b; Some (x + y).

(** ** Arrays: [slice], [find], [findIndex], [splice] *)

(** ToIntegerOrInfinity: NaN becomes 0. *)
Definition to_integer (x : option Z) : Z := default 0 x.

(** A negative index counts from the end; both ends are clamped. *)
Definition relative_index (len i : Z) : Z :=
  if i <? 0 then Z.max (len + i) 0 else Z.min i len.

Definition slice {A} (l : list A) (start final : option Z) : list A :=
  let len := Z.of_nat (length l) in
  let k := relative_index len (to_integer start) in
  let e := relative_index len (to_integer final) in
  take (Z.to_nat (e - k)) (drop (Z.to_nat k) l).

Fixpoint find {A} (f : A → bool) (l : list A) : option A :=
  match l with
  | [] => None
  | x :: r => if f x then Some x else find f r
  end.

(** [findIndex]: [None] stands for the result -1. *)
Fixpoint findIndex {A} (f : A → bool) (l : list A) : option nat :=
  match l with
  | [] => None
  | x :: r => if f x then Some O else S <$> findIndex f r
  end.

(** [l.splice(i, 1)]. *)
Definition splice1 {A} (i : nat) (l : list A) : list A := delete i l.

(** [String(v)], the coercion applied to a value used as a property key.
    Inside an array, null prints as the empty string.  A number is printed
    with all its digits, as JavaScript prints the integers below 10^21. *)
Fixpoint toString (v : JValue) : string :=
  match v with
  | JNull => "null"
  | JBool true => "true"
  | JBool false => "false"
  | JNum z => pretty z
  | JStr s => s
  | JArr l =>
      (fix join (l : list JValue) : string :=
         match l with
         | [] => ""
         | [x] => match x with JNull => "" | _ => toString x end
         | x :: r =>
             (match x with JNull => "" | _ => toString x end) ++ "," ++ join r
         end) l
  | JObj _ => "[object Object]"
  end.

Definition toPropertyKey (v : option JValue) : string :=
  match v with
  | None => "undefined"
  | Some x => toString x
  end.

(** ** Exceptions

    A computation either returns or throws a [TypeError]; the only throwing
    operation of the handlers is a method call on a value that has no such
    method. *)

Inductive exn (A : Type) : Type :=
  | Ret (a : A)
  | Throw.
Arguments Ret {A} a.
Arguments Throw {A}.

Definition exn_bind {A B} (m : exn A) (k : A → exn B) : exn B :=
  match m with
  | Ret a => k a
  | Throw => Throw
  end.

Notation "'let!' x ':=' m 'in' k" := (exn_bind m (fun x => k))
  (at level 10, x name, m at level 100, k at level 200, only parsing).

(** [v.toLowerCase()]: defined on strings; any other value that passed
    validation (a number, [true], an array, an object) has no such method,
    and calling [undefined] throws; so does reading it off null or
    undefined. *)
Definition call_toLowerCase (v : option JValue) : exn string :=
  match v with
  | Some (JStr s) => Ret (toLowerCase s)
  | _ => Throw
  end.

(** [l.filter(f)] for a callback that may throw: the callback runs on the
    elements in order and the first exception aborts the call. *)
Fixpoint filter_exn {A} (f : A → exn bool) (l : list A) : exn (list A) :=
  match l with
  | [] => Ret []
  | x :: r =>
      let! b := f x in
      let! r' := filter_exn f r in
      Ret (if b then x :: r' else r')
  end.

(** ** Requests and responses *)

(** The methods for which the file registers routes, and PATCH for one
    that it does not route. *)
Inductive Method := GET | POST | PUT | DELETE | PATCH.

Definition Method_eqb (a b : Method) : bool :=
  match a, b with
  | GET, GET | POST, POST | PUT, PUT | DELETE, DELETE | PATCH, PATCH => true
  | _, _ => false
  end.

(** What the handlers read of a request: the method, the non-empty
    segments of the path (so that [/api/products] and [/api/products/] are
    the same path, as they are for Express), [req.headers['x-api-key']],
    [req.query] and [req.body] as [express.json()] leaves it, a JSON
    object (the empty one when the request has no body). *)
Record Request := {
  method : Method;
  path : list string;
  x_api_key : option string;
  query : gmap string string;
  req_body : gmap string JValue
}.

Inductive Body :=
  | BodyError (error : string)
  | BodyProduct (p : gmap string JValue)
  | BodyList (total : nat) (page limit : option Z)
             (data : list (gmap string JValue))
  | BodySearch (count : nat) (results : list (gmap string JValue))
  | BodyStats (countByCategory : gmap string Z)
  | BodyEmpty
  | BodyCannot.

Record Response := { status : Z; res_body : Body }.

(** [res.status(c).json({ error: msg })]. *)
Definition json_error (c : Z) (msg : string) : Response :=
  {| status := c; res_body := BodyError msg |}.

(** A middleware or handler either calls [next()], or sends a response
    (leaving the array of products in some state), or throws. *)
Inductive Outcome :=
  | Next
  | Respond (r : Response) (products : list (gmap string JValue))
  | Raise.

(** ** The two middlewares *)

Definition authenticate (req : Request) (products : Store) : Outcome :=
  let apiKey := x_api_key req in
  if negb (bool_decide (apiKey = Some "123456"))
  then Respond (json_error 401 "Unauthorized: Invalid API Key") products
  else Next.

Definition is_undefined (v : option JValue) : bool :=
  match v with None => true | Some _ => false end.

Definition validateProduct (req : Request) (products : Store) : Outcome :=
  let name := req_body req !! "name" in
  let description := req_body req !! "description" in
  let price := req_body req !! "price" in
  let category := req_body req !! "category" in
  let inStock := req_body req !! "inStock" in
  if falsy name || falsy description || is_undefined price
     || falsy category || is_undefined inStock
  then Respond (json_error 400 "All fields are required") products
  else if negb (JType_eqb (typeof price) TNumber)
          || negb (JType_eqb (typeof inStock) TBoolean)
  then Respond (json_error 400 "Invalid data types for price or inStock")
         products
  else Next.

(** ** The handlers

    [params] is [req.params]; [uuid] is the value of [uuidv4()]. *)

(** [p.id === req.params.id]. *)
Definition id_is (params : gmap string string) (p : gmap string JValue)
  : bool :=
  match params !! "id" with
  | Some i => strict_eq_str (p !! "id") i
  | None => is_undefined (p !! "id")
  end.

(** The query parameter with its default: [page = 1], [limit = 10]. *)
Definition int_param (q : gmap string string) (k : string) (d : Z)
  : option Z :=
  match q !! k with
  | Some s => parseInt s
  | None => Some d
  end.

(** A query string is truthy when it is given and not empty. *)
Definition truthy_str (s : option string) : option string :=
  match s with
  | Some t => if String.eqb t "" then None else Some t
  | None => None
  end.

(** [if (category) filtered = filtered.filter(...)], on a copy of the
    array. *)
Definition filter_category (category : option string) (products : Store)
  : exn (list (gmap string JValue)) :=
  match truthy_str category with
  | Some category =>
      filter_exn
        (fun p =>
           let! c := call_toLowerCase (p !! "category") in
           Ret (String.eqb c (toLowerCase category)))
        products
  | None => Ret products
  end.

Definition listProducts (req : Request) (products : Store) : Outcome :=
  let category := query req !! "category" in
  let page := int_param (query req) "page" 1 in
  let limit := int_param (query req) "limit" 10 in
  match filter_category category products with
  | Throw => Raise
  | Ret filtered =>
      let start := num_mul (num_sub page (Some 1)) limit in
      let final := num_add start limit in
      let paginated := slice filtered start final in
      Respond {| status := 200;
                 res_body := BodyList (length filtered) page limit paginated |}
              products
  end.

Definition getProduct (params : gmap string string) (products : Store)
  : Outcome :=
  match find (id_is params) products with
  | None => Respond (json_error 404 "Product not found") products
  | Some product =>
      Respond {| status := 200; res_body := BodyProduct product |} products
  end.

(** [{ id: v, ...body }]: the properties of [body] are copied over the
    object that holds [id] alone, so a property [id] of [body] wins. *)
Definition spread_over_id (v : option string) (body : gmap string JValue)
  : gmap string JValue :=
  body ∪ match v with
         | Some i => {[ "id" := JStr i ]}
         | None => ∅
         end.

Definition createProduct (uuid : string) (req : Request) (products : Store)
  : Outcome :=
  let newProduct := spread_over_id (Some uuid) (req_body req) in
  Respond {| status := 201; res_body := BodyProduct newProduct |}
          (products ++ [newProduct]).

Definition replaceProduct (params : gmap string string) (req : Request)
    (products : Store) : Outcome :=
  match findIndex (id_is params) products with
  | None => Respond (json_error 404 "Product not found") products
  | Some index =>
      let products' :=
        <[index := spread_over_id (params !! "id") (req_body req)]> products in
      Respond {| status := 200;
                 res_body := from_option BodyProduct BodyEmpty
                               (products' !! index) |}
              products'
  end.

Definition deleteProduct (params : gmap string string) (products : Store)
  : Outcome :=
  match findIndex (id_is params) products with
  | None => Respond (json_error 404 "Product not found") products
  | Some index =>
      Respond {| status := 204; res_body := BodyEmpty |}
              (splice1 index products)
  end.

Definition searchProducts (req : Request) (products : Store) : Outcome :=
  match truthy_str (query req !! "q") with
  | None => Respond (json_error 400 "Missing search query (?q=)") products
  | Some q =>
      match filter_exn
              (fun p =>
                 let! n := call_toLowerCase (p !! "name") in
                 Ret (includes n (toLowerCase q)))
              products with
      | Throw => Raise
      | Ret results =>
          Respond {| status := 200;
                     res_body := BodySearch (length results) results |}
                  products
      end
  end.

(** [stats[p.category] = (stats[p.category] || 0) + 1], over the products in
    order.  (The members that a JavaScript object inherits, such as
    [constructor], are not part of this map.) *)
Definition count_category (stats : gmap string Z) (p : gmap string JValue)
  : gmap string Z :=
  let k := toPropertyKey (p !! "category") in
  <[k := default 0 (stats !! k) + 1]> stats.

Definition productStats (products : Store) : Outcome :=
  let stats := fold_left count_category products ∅ in
  Respond {| status := 200; res_body := BodyStats stats |} products.

(** ** Routing

    The logger and the body parser, registered with [app.use] before the
    routes, call [next()] on every request and leave no mark here.  Then
    come the routes in the order of their registration.  A path pattern is a
    list of segments, a literal or a named parameter; literals are compared
    without regard to case (the default of Express) and a parameter takes
    one non-empty segment. *)

Inductive Segment := Lit (s : string) | Param (name : string).

Fixpoint match_path (pat : list Segment) (p : list string)
  : option (gmap string string) :=
  match pat, p with
  | [], [] => Some ∅
  | Lit s :: pat', seg :: p' =>
      if String.eqb (toLowerCase s) (toLowerCase seg)
      then match_path pat' p'
      else None
  | Param name :: pat', seg :: p' =>
      if String.eqb seg "" then None
      else (fun params => <[name := seg]> params) <$> match_path pat' p'
  | _, _ => None
  end.

Inductive Handler :=
  | Authenticate
  | ValidateProduct
  | ListProducts
  | GetProduct
  | CreateProduct
  | ReplaceProduct
  | DeleteProduct
  | SearchProducts
  | ProductStats.

#[global] Instance Handler_eq_dec : EqDecision Handler.
Proof. solve_decision. Defined.

Record Route := {
  route_method : Method;
  route_path : list Segment;
  route_stack : list Handler
}.

Definition products_path : list Segment := [Lit "api"; Lit "products"].

Definition routes : list Route :=
  [ {| route_method := GET; route_path := products_path;
       route_stack := [Authenticate; ListProducts] |};
    {| route_method := GET; route_path := products_path ++ [Param "id"];
       route_stack := [Authenticate; GetProduct] |};
    {| route_method := POST; route_path := products_path;
       route_stack := [Authenticate; ValidateProduct; CreateProduct] |};
    {| route_method := PUT; route_path := products_path ++ [Param "id"];
       route_stack := [Authenticate; ValidateProduct; ReplaceProduct] |};
    {| route_method := DELETE; route_path := products_path ++ [Param "id"];
       route_stack := [Authenticate; DeleteProduct] |};
    {| route_method := GET; route_path := products_path ++ [Lit "search"];
       route_stack := [Authenticate; SearchProducts] |};
    {| route_method := GET; route_path := products_path ++ [Lit "stats"];
       route_stack := [Authenticate; ProductStats] |} ].

Definition run_handler (h : Handler) (uuid : string)
    (params : gmap string string) (req : Request) (products : Store)
  : Outcome :=
  match h with
  | Authenticate => authenticate req products
  | ValidateProduct => validateProduct req products
  | ListProducts => listProducts req products
  | GetProduct => getProduct params products
  | CreateProduct => createProduct uuid req products
  | ReplaceProduct => replaceProduct params req products
  | DeleteProduct => deleteProduct params products
  | SearchProducts => searchProducts req products
  | ProductStats => productStats products
  end.

(** The functions of a route run in order for as long as each calls
    [next()]; the second component lists the functions that ran. *)
Fixpoint run_stack (hs : list Handler) (uuid : string)
    (params : gmap string string) (req : Request) (products : Store)
  : Outcome * list Handler :=
  match hs with
  | [] => (Next, [])
  | h :: hs' =>
      match run_handler h uuid params req products with
      | Next =>
          let '(o, t) := run_stack hs' uuid params req products in
          (o, h :: t)
      | o => (o, [h])
      end
  end.

Record Result := {
  response : Response;
  store : list (gmap string JValue);
  trace : list Handler
}.

Definition route_matches (r : Route) (req : Request)
  : option (gmap string string) :=
  if Method_eqb (route_method r) (method req)
  then match_path (route_path r) (path req)
  else None.

(** The routes are tried in order.  A route whose functions all call
    [next()] hands the request to the routes after it; an exception goes to
    the global error handler; a request that no route answers gets the
    404 of Express itself. *)
Fixpoint dispatch (rs : list Route) (uuid : string) (req : Request)
    (products : Store) (ran : list Handler) : Result :=
  match rs with
  | [] =>
      {| response := {| status := 404; res_body := BodyCannot |};
         store := products; trace := ran |}
  | r :: rs' =>
      match route_matches r req with
      | None => dispatch rs' uuid req products ran
      | Some params =>
          match run_stack (route_stack r) uuid params req products with
          | (Next, t) => dispatch rs' uuid req products (ran ++ t)
          | (Respond resp products', t) =>
              {| response := resp; store := products'; trace := ran ++ t |}
          | (Raise, t) =>
              {| response := json_error 500 "Something went wrong";
                 store := products; trace := ran ++ t |}
          end
      end
  end.

(** One request served by the application. *)
Definition handle (uuid : string) (req : Request) (products : Store)
  : Result :=
  dispatch routes uuid req products [].

(** The states of the array of products that sequences of POST, PUT and
    DELETE requests produce from the empty array. *)
Inductive reachable : Store → Prop :=
  | reachable_start : reachable []
  | reachable_step products uuid req :
      reachable products →
      method req = POST ∨ method req = PUT ∨ method req = DELETE →
      reachable (store (handle uuid req products)).

Local Open Scope list_scope.

(** ** Notions used by the statements *)

(** What [dispatch] returns for a route whose functions did not all call
    [next()]. *)
Definition answered (o : Outcome * list Handler) (products : Store)
    (ran : list Handler) : Result :=
  match o with
  | (Respond resp products', t) =>
      {| response := resp; store := products'; trace := ran ++ t |}
  | (_, t) =>
      {| response := json_error 500 "Something went wrong";
         store := products; trace := ran ++ t |}
  end.



(** A required field is missing: [name], [description] or [category] is
    absent or falsy, or [price] or [inStock] is undefined. *)
Definition missing_field (b : gmap string JValue) : Prop :=
  falsy (b !! "name") = true ∨ falsy (b !! "description") = true ∨
  falsy (b !! "category") = true ∨
  b !! "price" = None ∨ b !! "inStock" = None.

(** [price] is not a number or [inStock] is not a boolean. *)
Definition wrong_type (b : gmap string JValue) : Prop :=
  typeof (b !! "price") ≠ TNumber ∨ typeof (b !! "inStock") ≠ TBoolean.

(** The products whose category is [c], letter case apart. *)
Definition same_category (c : string) (p : gmap string JValue) : bool :=
  match p !! "category" with
  | Some (JStr s) => String.eqb (toLowerCase s) (toLowerCase c)
  | _ => false
  end.

(** Skip [(page - 1) * limit] items, then take up to [limit]. *)
Definition page_of {A} (page limit : Z) (l : list A) : list A :=
  take (Z.to_nat limit) (drop (Z.to_nat ((page - 1) * limit)) l).

(** The category of the product is a string. *)
Definition string_category (p : gmap string JValue) : Prop :=
  ∃ s, p !! "category" = Some (JStr s).

(** The listing as the specification words it: the filter is applied
    whenever [category] is given, and the page is cut by skipping and
    taking. *)
Definition listing_as_stated (req : Request) (products : Store) : Prop :=
  ∀ uuid page limit,
    int_param (query req) "page" 1 = Some page →
    int_param (query req) "limit" 10 = Some limit →
    response (handle uuid req products) =
    {| status := 200;
       res_body :=
         let filtered :=
           match query req !! "category" with
           | Some c => List.filter (same_category c) products
           | None => products
           end in
         BodyList (length filtered) (Some page) (Some limit)
           (page_of page limit filtered) |}.

(** The name of the product is a string. *)
Definition string_name (p : gmap string JValue) : Prop :=
  ∃ s, p !! "name" = Some (JStr s).

(** The products whose name contains [q], letter case apart. *)
Definition name_includes (q : string) (p : gmap string JValue) : bool :=
  match p !! "name" with
  | Some (JStr s) => includes (toLowerCase s) (toLowerCase q)
  | _ => false
  end.

(** The number of products whose category is exactly [c]. *)
Definition count_in (c : string) (products : Store) : Z :=
  Z.of_nat (length (List.filter
                      (fun p => strict_eq_str (p !! "category") c) products)).

(** The four ways in which one request can leave the array: as it was,
    with a record pushed, with the record at a found index replaced, or
    with the record at a found index removed. *)
Inductive store_change (uuid : string) (req : Request) (products : Store)
  : Store → Prop :=
  | change_none : store_change uuid req products products
  | change_push :
      store_change uuid req products
        (products ++ [spread_over_id (Some uuid) (req_body req)])
  | change_replace params i :
      findIndex (id_is params) products = Some i →
      store_change uuid req products
        (<[i := spread_over_id (params !! "id") (req_body req)]> products)
  | change_delete params i :
      findIndex (id_is params) products = Some i →
      store_change uuid req products (delete i products).

(** The [id] properties of the stored products, in order. *)
Definition ids (products : Store) : list (option JValue) :=
  (fun p : gmap string JValue => p !! "id") <$> products.

(** ** Sample data *)

Definition product (id name category : string) : gmap string JValue :=
  {[ "id" := JStr id; "name" := JStr name; "description" := JStr "-";
     "price" := JNum 0; "category" := JStr category;
     "inStock" := JBool false ]}.

(** A body that passes [validateProduct], with price 0 and inStock false. *)
Definition fields (name category : string) : gmap string JValue :=
  {[ "name" := JStr name; "description" := JStr "-"; "price" := JNum 0;
     "category" := JStr category; "inStock" := JBool false ]}.

Definition request (m : Method) (p : list string)
    (q : gmap string string) (b : gmap string JValue) : Request :=
  {| method := m; path := p; x_api_key := Some "123456";
     query := q; req_body := b |}.

(** ** Notions used by the further properties *)

(** What serving one request does to the array: nothing; or, for a POST
    with the right key and a valid body, a record pushed and 201; or, for a
    PUT with the right key and a valid body, the record at the found index
    replaced and 200; or, for a DELETE with the right key, the record at
    the found index removed and 204. *)
Inductive effect (uuid : string) (req : Request) (products : Store)
  : Result → Prop :=
  | effect_none resp t :
      effect uuid req products
        {| response := resp; store := products; trace := t |}
  | effect_create resp t :
      method req = POST → x_api_key req = Some "123456" →
      validateProduct req products = Next →
      status resp = 201 →
      effect uuid req products
        {| response := resp;
           store := products ++ [spread_over_id (Some uuid) (req_body req)];
           trace := t |}
  | effect_replace id i resp t :
      method req = PUT → x_api_key req = Some "123456" →
      validateProduct req products = Next →
      findIndex (id_is {[ "id" := id ]}) products = Some i →
      status resp = 200 →
      effect uuid req products
        {| response := resp;
           store := <[i := spread_over_id (Some id) (req_body req)]> products;
           trace := t |}
  | effect_delete id i resp t :
      method req = DELETE → x_api_key req = Some "123456" →
      findIndex (id_is {[ "id" := id ]}) products = Some i →
      status resp = 204 →
      effect uuid req products
        {| response := resp; store := delete i products; trace := t |}.

(** A stored record is well formed when it has an [id] property and its
    five required fields would pass [validateProduct]. *)
Definition well_formed (p : gmap string JValue) : Prop :=
  is_Some (p !! "id") ∧ ¬ missing_field p ∧ ¬ wrong_type p.

(** The products that a listing keeps: those of the given category, letter
    case apart, or all of them when no category or an empty one is given. *)
Definition filtered_by (category : option string) (products : Store)
  : list (gmap string JValue) :=
  match truthy_str category with
  | Some c => List.filter (same_category c) products
  | None => products
  end.

(** The property names that the object literal [{}] inherits from
    [Object.prototype]: read through [stats[k]] they are not undefined, so
    the map of [count_category] stands for [stats] only away from them. *)
Definition inherited_keys : list string :=
  [ "constructor"; "__proto__"; "hasOwnProperty"; "isPrototypeOf";
    "propertyIsEnumerable"; "toLocaleString"; "toString"; "valueOf";
    "__defineGetter__"; "__defineSetter__"; "__lookupGetter__";
    "__lookupSetter__" ].

(** The category of the product is a string that [{}] does not inherit. *)
Definition plain_category (p : gmap string JValue) : Prop :=
  ∃ s, p !! "category" = Some (JStr s) ∧ s ∉ inherited_keys.

(** ** The body parser in front of the routes

    [app.use(express.json())] runs before every route.  It leaves the
    parsed body in [req.body], or refuses the body (JSON that does not
    parse, or is not an object or an array) and hands its error to the
    global error handler, which answers 500 whatever the route and the key.
    An array has none of the fields that the handlers read: it stands here
    as the object without fields. *)

Record Incoming := {
  in_method : Method;
  in_path : list string;
  in_key : option string;
  in_query : gmap string string;
  in_body : option (gmap string JValue)
}.

(** The request that the routes see, when the parser accepted the body. *)
Definition accepted (inc : Incoming) : option Request :=
  (fun b => {| method := in_method inc; path := in_path inc;
               x_api_key := in_key inc; query := in_query inc;
               req_body := b |}) <$> in_body inc.

Definition serve (uuid : string) (inc : Incoming) (products : Store)
  : Result :=
  match accepted inc with
  | Some req => handle uuid req products
  | None =>
      {| response := json_error 500 "Something went wrong";
         store := products; trace := [] |}
  end.

(** ** Where the embedding is exact *)

(** [Number.MAX_SAFE_INTEGER]: up to it the numbers of JavaScript are the
    integers. *)
Definition max_safe : Z := 2 ^ 53 - 1.

(** The string has ASCII characters only. *)
Fixpoint ascii_only (s : string) : bool :=
  match s with
  | EmptyString => true
  | String c r => Nat.ltb (nat_of_ascii c) 128 && ascii_only r
  end.

(** The category, or the name, of the product is an ASCII string. *)
Definition ascii_category (p : gmap string JValue) : Prop :=
  ∃ s, p !! "category" = Some (JStr s) ∧ ascii_only s = true.

Definition ascii_name (p : gmap string JValue) : Prop :=
  ∃ s, p !! "name" = Some (JStr s) ∧ ascii_only s = true.

(** A listing compares categories only when a non-empty [category] is
    given; it is then an ASCII string, and so are the stored categories. *)
Definition ascii_listing (category : option string) (products : Store)
  : Prop :=
  ∀ c, truthy_str category = Some c →
       ascii_only c = true ∧ Forall ascii_category products.

(** The query parameter is given, as an ASCII string that [parseInt] reads
    as NaN. *)
Definition not_a_number (q : gmap string string) (k : string) : Prop :=
  ∃ s, q !! k = Some s ∧ ascii_only s = true ∧ parseInt s = None.


(** * Properties *)

(** ** Values and strings *)

Lemma strict_eq_str_spec v s : strict_eq_str v s = true ↔ v = Some (JStr s).
Proof.
  destruct v as [[]|]; simpl; try (split; [discriminate | congruence]).
  rewrite String.eqb_eq. split; congruence.
Qed.

Lemma strict_eq_str_false v s : strict_eq_str v s = false ↔ v ≠ Some (JStr s).
Proof.
  rewrite <- strict_eq_str_spec. destruct (strict_eq_str v s); split; congruence.
Qed.

Lemma id_is_param id (p : gmap string JValue) :
  id_is {[ "id" := id ]} p = strict_eq_str (p !! "id") id.
Proof. unfold id_is. by rewrite lookup_singleton_eq. Qed.

(** ** One step of the dispatch *)

Lemma dispatch_skip r rs uuid req products ran :
  route_matches r req = None →
  dispatch (r :: rs) uuid req products ran = dispatch rs uuid req products ran.
Proof. intros H. simpl. by rewrite H. Qed.

Lemma dispatch_hit r rs uuid req products ran params :
  route_matches r req = Some params →
  fst (run_stack (route_stack r) uuid params req products) ≠ Next →
  dispatch (r :: rs) uuid req products ran =
  answered (run_stack (route_stack r) uuid params req products) products ran.
Proof.
  intros H Hn. simpl. rewrite H.
  by destruct (run_stack _ _ _ _ _) as [[] t].
Qed.

Lemma run_stack_cons h hs uuid params req products :
  run_stack (h :: hs) uuid params req products =
  match run_handler h uuid params req products with
  | Next =>
      (fst (run_stack hs uuid params req products),
       h :: snd (run_stack hs uuid params req products))
  | o => (o, [h])
  end.
Proof. simpl. destruct (run_handler _ _ _ _ _); try done. by destruct (run_stack _ _ _ _ _). Qed.

Lemma authenticate_ok req products :
  x_api_key req = Some "123456" → authenticate req products = Next.
Proof. intros H. unfold authenticate. by rewrite H. Qed.

Lemma authenticate_reject req products :
  x_api_key req ≠ Some "123456" →
  authenticate req products =
  Respond (json_error 401 "Unauthorized: Invalid API Key") products.
Proof. intros H. unfold authenticate. by rewrite bool_decide_eq_false_2. Qed.

(** ** Which route serves which request *)

Ltac skip_route Hm Hp :=
  rewrite dispatch_skip by (unfold route_matches; rewrite Hm, Hp; reflexivity).

Ltac hit_route Hm Hp Hk :=
  erewrite dispatch_hit;
  [ | unfold route_matches; rewrite Hm, Hp; reflexivity
    | cbn [route_stack]; rewrite !run_stack_cons; cbn [run_handler];
      rewrite ?authenticate_ok by exact Hk ];
  [ cbn [route_stack]; rewrite !run_stack_cons; cbn [run_handler];
    rewrite ?authenticate_ok by exact Hk | ].

Lemma match_id_path id :
  id ≠ "" →
  match_path (products_path ++ [Param "id"]) ["api"; "products"; id] =
  Some {[ "id" := id ]}.
Proof.
  intros Hid. apply String.eqb_neq in Hid.
  cbn -[insert]. by rewrite Hid.
Qed.

Lemma listProducts_not_next req products : listProducts req products ≠ Next.
Proof. unfold listProducts. by destruct (filter_category _ _). Qed.

Lemma getProduct_not_next params products : getProduct params products ≠ Next.
Proof. unfold getProduct. by destruct (find _ _). Qed.

Lemma replaceProduct_not_next params req products :
  replaceProduct params req products ≠ Next.
Proof. unfold replaceProduct. by destruct (findIndex _ _). Qed.

Lemma deleteProduct_not_next params products :
  deleteProduct params products ≠ Next.
Proof. unfold deleteProduct. by destruct (findIndex _ _). Qed.

Ltac hit_id_route Hm Hp Hk Hid :=
  erewrite dispatch_hit;
  [ | unfold route_matches; rewrite Hm, Hp; cbn [Method_eqb route_method route_path];
      exact (match_id_path _ Hid)
    | cbn [route_stack]; rewrite !run_stack_cons; cbn [run_handler];
      rewrite ?authenticate_ok by exact Hk ];
  [ cbn [route_stack]; rewrite !run_stack_cons; cbn [run_handler];
    rewrite ?authenticate_ok by exact Hk | ].

Section Routing.
Context (uuid : string) (req : Request) (products : Store).
Hypothesis Hk : x_api_key req = Some "123456".

Lemma route_list :
  method req = GET → path req = ["api"; "products"] →
  handle uuid req products =
  answered (listProducts req products, [Authenticate; ListProducts])
    products [].
Proof.
  intros Hm Hp. unfold handle, routes.
  hit_route Hm Hp Hk.
  - by destruct (listProducts req products).
  - pose proof (listProducts_not_next req products).
    by destruct (listProducts req products).
Qed.

Lemma route_get_id id :
  method req = GET → path req = ["api"; "products"; id] → id ≠ "" →
  handle uuid req products =
  answered (getProduct {[ "id" := id ]} products,
            [Authenticate; GetProduct]) products [].
Proof.
  intros Hm Hp Hid. unfold handle, routes.
  skip_route Hm Hp. hit_id_route Hm Hp Hk Hid.
  - by destruct (getProduct _ products).
  - pose proof (getProduct_not_next {[ "id" := id ]} products).
    by destruct (getProduct _ products).
Qed.

Lemma route_create :
  method req = POST → path req = ["api"; "products"] →
  handle uuid req products =
  match validateProduct req products with
  | Next =>
      answered (createProduct uuid req products,
                [Authenticate; ValidateProduct; CreateProduct]) products []
  | o => answered (o, [Authenticate; ValidateProduct]) products []
  end.
Proof.
  intros Hm Hp. unfold handle, routes.
  do 2 skip_route Hm Hp. hit_route Hm Hp Hk.
  - unfold validateProduct.
    destruct (_ || _); [done|]. by destruct (_ || _).
  - unfold validateProduct.
    destruct (_ || _); [done|]. by destruct (_ || _).
Qed.

Lemma route_replace id :
  method req = PUT → path req = ["api"; "products"; id] → id ≠ "" →
  handle uuid req products =
  match validateProduct req products with
  | Next =>
      answered (replaceProduct {[ "id" := id ]} req products,
                [Authenticate; ValidateProduct; ReplaceProduct]) products []
  | o => answered (o, [Authenticate; ValidateProduct]) products []
  end.
Proof.
  intros Hm Hp Hid. unfold handle, routes.
  do 3 skip_route Hm Hp. hit_id_route Hm Hp Hk Hid.
  - unfold validateProduct.
    destruct (_ || _); [done|]. destruct (_ || _); [done|].
    by destruct (replaceProduct _ req products).
  - unfold validateProduct.
    destruct (_ || _); [done|]. destruct (_ || _); [done|].
    pose proof (replaceProduct_not_next {[ "id" := id ]} req products).
    by destruct (replaceProduct _ req products).
Qed.

Lemma route_delete id :
  method req = DELETE → path req = ["api"; "products"; id] → id ≠ "" →
  handle uuid req products =
  answered (deleteProduct {[ "id" := id ]} products,
            [Authenticate; DeleteProduct]) products [].
Proof.
  intros Hm Hp Hid. unfold handle, routes.
  do 4 skip_route Hm Hp. hit_id_route Hm Hp Hk Hid.
  - by destruct (deleteProduct _ products).
  - pose proof (deleteProduct_not_next {[ "id" := id ]} products).
    by destruct (deleteProduct _ products).
Qed.
End Routing.

(** ** Authentication *)





Lemma serve_accepted uuid inc req products :
  accepted inc = Some req → serve uuid inc products = handle uuid req products.
Proof. intros H. unfold serve. by rewrite H. Qed.




(** ** Looking a product up by its id *)

Lemma find_none {A} (f : A → bool) l :
  Forall (fun x => f x = false) l → find f l = None.
Proof. induction 1 as [|x l Hx _ IH]; simpl; [done|]. by rewrite Hx. Qed.

Lemma find_first {A} (f : A → bool) pre x post :
  Forall (fun y => f y = false) pre → f x = true →
  find f (pre ++ x :: post) = Some x.
Proof.
  intros Hpre Hx. induction Hpre as [|y l Hy _ IH]; simpl.
  - by rewrite Hx.
  - by rewrite Hy.
Qed.

Lemma findIndex_none {A} (f : A → bool) l :
  Forall (fun x => f x = false) l → findIndex f l = None.
Proof.
  induction 1 as [|x l Hx _ IH]; simpl; [done|]. by rewrite Hx, IH.
Qed.

Lemma findIndex_first {A} (f : A → bool) pre x post :
  Forall (fun y => f y = false) pre → f x = true →
  findIndex f (pre ++ x :: post) = Some (length pre).
Proof.
  intros Hpre Hx. induction Hpre as [|y l Hy _ IH]; simpl.
  - by rewrite Hx.
  - by rewrite Hy, IH.
Qed.

Lemma no_id_is id (l : Store) :
  Forall (fun p => p !! "id" ≠ Some (JStr id)) l →
  Forall (fun p => id_is {[ "id" := id ]} p = false) l.
Proof.
  intros H. eapply Forall_impl; [exact H|]. intros p Hp. simpl.
  rewrite id_is_param. by apply strict_eq_str_false.
Qed.

Lemma has_id_is id (p : gmap string JValue) :
  p !! "id" = Some (JStr id) → id_is {[ "id" := id ]} p = true.
Proof. intros Hp. rewrite id_is_param. by apply strict_eq_str_spec. Qed.

(** ** The shape of a created or replaced record *)

Lemma spread_over_id_body v (body : gmap string JValue) k x :
  body !! k = Some x → spread_over_id v body !! k = Some x.
Proof. intros H. unfold spread_over_id. by apply lookup_union_Some_l. Qed.

Lemma spread_over_id_other v (body : gmap string JValue) k :
  k ≠ "id" → spread_over_id v body !! k = body !! k.
Proof.
  intros Hk. unfold spread_over_id. rewrite lookup_union.
  destruct v; [rewrite lookup_singleton_ne by done | rewrite lookup_empty];
    by destruct (body !! k).
Qed.

Lemma spread_over_id_fresh i (body : gmap string JValue) :
  body !! "id" = None → spread_over_id (Some i) body !! "id" = Some (JStr i).
Proof.
  intros H. unfold spread_over_id.
  by rewrite lookup_union_r, lookup_singleton_eq.
Qed.

(** C2: [GET /api/products/:id] is registered before the search and the
    stats routes, so a GET of [/api/products/search] or [/api/products/stats]
    with the right key is served by the get-by-id handler with the id
    "search" or "stats"; when no stored product has that id the answer is
    404 "Product not found"; the search and stats handlers do not run. *)
Theorem search_and_stats_served_by_id uuid req products lit :
  method req = GET →
  lit = "search" ∨ lit = "stats" →
  path req = ["api"; "products"; lit] →
  x_api_key req = Some "123456" →
  handle uuid req products =
    answered (getProduct {[ "id" := lit ]} products,
              [Authenticate; GetProduct]) products [] ∧
  trace (handle uuid req products) = [Authenticate; GetProduct] ∧
  (Forall (fun p => p !! "id" ≠ Some (JStr lit)) products →
   response (handle uuid req products) = json_error 404 "Product not found" ∧
   store (handle uuid req products) = products) ∧
  (SearchProducts ∉ trace (handle uuid req products)) ∧
  (ProductStats ∉ trace (handle uuid req products)).
Proof.
  intros Hm Hlit Hp Hk. set (r := handle uuid req products).
  assert (lit ≠ "") as Hne by (destruct Hlit as [-> | ->]; done).
  assert (r = answered (getProduct {[ "id" := lit ]} products,
                        [Authenticate; GetProduct]) products []) as Hr
    by (by apply route_get_id).
  assert (trace r = [Authenticate; GetProduct]) as Ht.
  { rewrite Hr. unfold getProduct. by destruct (find _ _). }
  split; [done|]. split; [done|]. split.
  - intros Hno. rewrite Hr. unfold getProduct.
    by rewrite (find_none _ _ (no_id_is _ _ Hno)).
  - rewrite Ht.
    split; intros Hin;
      repeat (apply elem_of_cons in Hin as [Hin|Hin]; [discriminate|]);
      by apply elem_of_nil in Hin.
Qed.

Lemma search_and_stats_served_by_id_witness :
  let req := request GET ["api"; "products"; "stats"] ∅ ∅ in
  let products := [product "p1" "Cap" "A"] in
  trace (handle "u" req products) = [Authenticate; GetProduct] ∧
  response (handle "u" req products) = json_error 404 "Product not found" ∧
  store (handle "u" req products) = products.
Proof.
  intros req products.
  destruct (search_and_stats_served_by_id "u" req products "stats")
    as (_ & Ht & Hno & _); [reflexivity | by right | reflexivity..|].
  split; [exact Ht|]. apply Hno.
  repeat constructor. vm_compute. discriminate.
Defined.

(** ** The search and stats handlers on their own *)

Lemma append_String c (a b : string) :
  (String c a ++ b)%string = String c (a ++ b)%string.
Proof. reflexivity. Qed.

Lemma prefix_spec q s :
  String.prefix q s = true ↔ ∃ b, s = (q ++ b)%string.
Proof.
  revert s. induction q as [|a q IH]; intros s; simpl.
  - split; [by exists s | by destruct s].
  - destruct s as [|c s]; [split; [done | by intros [b Hb]]|].
    simpl. destruct (ascii_dec a c) as [->|Hne].
    + rewrite IH.
      split; intros [b Hb]; exists b; rewrite append_String in *; congruence.
    + split; [done | intros [b Hb]; rewrite append_String in Hb; congruence].
Qed.

(** [includes] holds exactly of the strings in which [q] occurs. *)
Lemma includes_spec s q :
  includes s q = true ↔ ∃ a b, s = (a ++ q ++ b)%string.
Proof.
  induction s as [|c s IH]; cbn [includes].
  - rewrite orb_false_r, prefix_spec. split.
    + intros [b Hb]. by exists "", b.
    + intros (a & b & Hab). destruct a; [by exists b | done].
  - rewrite orb_true_iff, prefix_spec, IH. split.
    + intros [[b Hb] | (a & b & Hab)].
      * by exists "", b.
      * exists (String c a), b. rewrite append_String. congruence.
    + intros (a & b & Hab). destruct a as [|c' a].
      * left. by exists b.
      * right. exists a, b. rewrite append_String in Hab. congruence.
Qed.

Lemma searchProducts_results req products q :
  query req !! "q" = Some q → q ≠ "" →
  Forall string_name products →
  searchProducts req products =
  Respond {| status := 200;
             res_body :=
               BodySearch (length (List.filter (name_includes q) products))
                 (List.filter (name_includes q) products) |}
          products.
Proof.
  intros Hq Hne Hnames. unfold searchProducts, truthy_str. rewrite Hq.
  apply String.eqb_neq in Hne. rewrite Hne.
  assert (filter_exn
            (fun p => let! n := call_toLowerCase (p !! "name") in
                      Ret (includes n (toLowerCase q))) products =
          Ret (List.filter (name_includes q) products)) as ->; [|done].
  induction Hnames as [|p l [s Hs] _ IH]; [done|].
  cbn [filter_exn List.filter]. unfold name_includes at 1.
  rewrite Hs, IH. simpl. by destruct (includes _ _).
Qed.

Lemma searchProducts_missing req products :
  query req !! "q" = None →
  searchProducts req products =
  Respond (json_error 400 "Missing search query (?q=)") products.
Proof. intros Hq. unfold searchProducts. by rewrite Hq. Qed.

Lemma count_in_cons c p (l : Store) :
  count_in c (p :: l) =
  (if strict_eq_str (p !! "category") c then 1 else 0) + count_in c l.
Proof.
  unfold count_in. cbn [List.filter].
  destruct (strict_eq_str _ _); cbn [length]; lia.
Qed.

Lemma count_in_nonneg c (l : Store) : 0 ≤ count_in c l.
Proof. unfold count_in. lia. Qed.

Lemma count_category_fold c (products : Store) (m : gmap string Z) :
  Forall string_category products →
  fold_left count_category products m !! c =
  if count_in c products =? 0 then m !! c
  else Some (default 0 (m !! c) + count_in c products).
Proof.
  intros Hcat. revert m.
  induction Hcat as [|p l [s Hs] _ IH]; intros m; [done|].
  cbn [fold_left]. rewrite IH, count_in_cons.
  pose proof (count_in_nonneg c l) as Hn.
  unfold count_category. rewrite Hs.
  cbn [toPropertyKey toString strict_eq_str].
  destruct (String.eqb_spec s c) as [->|Hne].
  - rewrite lookup_insert_eq.
    destruct (Z.eqb_spec (1 + count_in c l) 0) as [|_]; [lia|].
    destruct (Z.eqb_spec (count_in c l) 0) as [->|_];
      cbn [from_option]; unfold id; f_equal; lia.
  - rewrite lookup_insert_ne by done. by rewrite Z.add_0_l.
Qed.

(** On products whose categories are strings, the stats handler maps every
    category that occurs to the number of products that have it, and no
    other key. *)
Lemma productStats_counts (products : Store) :
  Forall string_category products →
  ∃ stats,
    productStats products =
      Respond {| status := 200; res_body := BodyStats stats |} products ∧
    ∀ c, stats !! c =
         if count_in c products =? 0 then None
         else Some (count_in c products).
Proof.
  intros Hcat. eexists. split; [reflexivity|]. intros c.
  rewrite (count_category_fold c products ∅ Hcat), lookup_empty. simpl.
  by destruct (_ =? 0).
Qed.

(** ** The search and stats routes *)

(** C1: the search handler, run on its own, answers a query for "shirt"
    with the product named "Blue Shirt"; the application answers the same
    request, [GET /api/products/search?q=shirt] with the right key, with
    404 "Product not found", and answers 404 too when [q] is missing: the
    search handler is not the one that runs. *)
Theorem search_request_answered_not_found :
  let blue := product "p1" "Blue Shirt" "Clothes" in
  let req := request GET ["api"; "products"; "search"] {[ "q" := "shirt" ]} ∅ in
  let req0 := request GET ["api"; "products"; "search"] ∅ ∅ in
  searchProducts req [blue] =
    Respond {| status := 200; res_body := BodySearch 1 [blue] |} [blue] ∧
  handle "u" req [blue] =
    {| response := json_error 404 "Product not found"; store := [blue];
       trace := [Authenticate; GetProduct] |} ∧
  searchProducts req0 [blue] =
    Respond (json_error 400 "Missing search query (?q=)") [blue] ∧
  handle "u" req0 [blue] =
    {| response := json_error 404 "Product not found"; store := [blue];
       trace := [Authenticate; GetProduct] |}.
Proof. vm_compute. done. Qed.

(** C3: the stats handler, run on its own, counts the categories A, A, B
    as A:2 and B:1; the application answers [GET /api/products/stats] with
    the right key with 404 "Product not found": the stats handler is not
    the one that runs. *)
Theorem stats_request_answered_not_found :
  let products := [product "p1" "x" "A"; product "p2" "y" "A";
                   product "p3" "z" "B"] in
  let req := request GET ["api"; "products"; "stats"] ∅ ∅ in
  productStats products =
    Respond {| status := 200;
               res_body := BodyStats {[ "A" := 2; "B" := 1 ]} |} products ∧
  handle "u" req products =
    {| response := json_error 404 "Product not found"; store := products;
       trace := [Authenticate; GetProduct] |}.
Proof. vm_compute. done. Qed.

(** ** Create *)

(** C4: a POST that passes authentication and validation stores and
    returns a product whose [id] is the [id] of the request body when the
    body has one, and the generated uuid when it has none. *)
Theorem create_id_from_body uuid req products :
  method req = POST → path req = ["api"; "products"] →
  x_api_key req = Some "123456" →
  validateProduct req products = Next →
  ∃ newProduct,
    handle uuid req products =
      {| response := {| status := 201; res_body := BodyProduct newProduct |};
         store := products ++ [newProduct];
         trace := [Authenticate; ValidateProduct; CreateProduct] |} ∧
    (∀ v, req_body req !! "id" = Some v → newProduct !! "id" = Some v) ∧
    (req_body req !! "id" = None → newProduct !! "id" = Some (JStr uuid)).
Proof.
  intros Hm Hp Hk Hv. exists (spread_over_id (Some uuid) (req_body req)).
  split; [|split].
  - by rewrite (route_create uuid req products Hk Hm Hp), Hv.
  - intros v. apply spread_over_id_body.
  - apply spread_over_id_fresh.
Qed.

Lemma create_id_from_body_witness :
  let req := request POST ["api"; "products"] ∅
               (<["id" := JStr "mine"]> (fields "Hat" "A")) in
  ∃ newProduct,
    handle "uuid-1" req [] =
      {| response := {| status := 201; res_body := BodyProduct newProduct |};
         store := [] ++ [newProduct];
         trace := [Authenticate; ValidateProduct; CreateProduct] |} ∧
    (∀ v, req_body req !! "id" = Some v → newProduct !! "id" = Some v) ∧
    (req_body req !! "id" = None → newProduct !! "id" = Some (JStr "uuid-1")).
Proof.
  intros req. apply (create_id_from_body "uuid-1" req []); reflexivity.
Defined.

(** C5: two POST requests whose bodies carry the same [id] leave two
    products with that id in the array, whatever uuids were generated, and
    a POST whose body carries the empty string as [id] returns a product
    whose id is empty. *)
Theorem duplicate_ids_reachable :
  let body := <["id" := JStr "dup"]> (fields "Hat" "A") in
  let post := request POST ["api"; "products"] ∅ body in
  let products := store (handle "uuid-2" post (store (handle "uuid-1" post []))) in
  reachable products ∧
  products = [product "dup" "Hat" "A"; product "dup" "Hat" "A"] ∧
  ¬ NoDup ((fun p : gmap string JValue => p !! "id") <$> products) ∧
  response (handle "uuid-3"
              (request POST ["api"; "products"] ∅
                 (<["id" := JStr ""]> (fields "Hat" "A"))) products) =
    {| status := 201; res_body := BodyProduct (product "" "Hat" "A") |}.
Proof.
  intros body post products. split; [|split; [|split]].
  - do 2 (apply reachable_step; [|by left]). apply reachable_start.
  - vm_compute. done.
  - assert (products = [product "dup" "Hat" "A"; product "dup" "Hat" "A"])
      as -> by (vm_compute; done).
    rewrite !fmap_cons, NoDup_cons. intros [Hnin _]. apply Hnin. left.
  - vm_compute. done.
Qed.

(** ** Replace *)

Lemma replaceProduct_missing id req products :
  Forall (fun q => q !! "id" ≠ Some (JStr id)) products →
  replaceProduct {[ "id" := id ]} req products =
  Respond (json_error 404 "Product not found") products.
Proof.
  intros Hno. unfold replaceProduct.
  by rewrite (findIndex_none _ _ (no_id_is _ _ Hno)).
Qed.

(** C6: a PUT to [/api/products/a] whose valid body carries the id "b"
    stores and returns a record whose id is "b", not the "a" of the path;
    the product can then no longer be fetched at [/api/products/a]. *)
Theorem replace_takes_id_from_body :
  let old := product "a" "Old" "A" in
  let put := request PUT ["api"; "products"; "a"] ∅
               (<["id" := JStr "b"]> (fields "New" "B")) in
  handle "u" put [old] =
    {| response := {| status := 200;
                      res_body := BodyProduct (product "b" "New" "B") |};
       store := [product "b" "New" "B"];
       trace := [Authenticate; ValidateProduct; ReplaceProduct] |} ∧
  response (handle "u" (request GET ["api"; "products"; "a"] ∅ ∅)
              (store (handle "u" put [old]))) =
    json_error 404 "Product not found".
Proof. vm_compute. done. Qed.

(** ** Products that share an id *)

Section FirstOccurrence.
Context (id : string) (pre : Store) (p : gmap string JValue) (post : Store).
Hypothesis Hpre : Forall (fun q => q !! "id" ≠ Some (JStr id)) pre.
Hypothesis Hp : p !! "id" = Some (JStr id).

Lemma getProduct_first :
  getProduct {[ "id" := id ]} (pre ++ p :: post) =
  Respond {| status := 200; res_body := BodyProduct p |} (pre ++ p :: post).
Proof.
  unfold getProduct.
  by rewrite (find_first _ _ _ _ (no_id_is _ _ Hpre) (has_id_is _ _ Hp)).
Qed.

Lemma replaceProduct_first req :
  replaceProduct {[ "id" := id ]} req (pre ++ p :: post) =
  Respond {| status := 200;
             res_body :=
               BodyProduct (spread_over_id (Some id) (req_body req)) |}
          (pre ++ spread_over_id (Some id) (req_body req) :: post).
Proof.
  unfold replaceProduct.
  rewrite (findIndex_first _ _ _ _ (no_id_is _ _ Hpre) (has_id_is _ _ Hp)).
  rewrite lookup_singleton_eq.
  replace (length pre) with (length pre + 0)%nat by lia.
  rewrite insert_app_r. simpl.
  by rewrite (list_lookup_middle _ _ _ (length pre + 0)) by lia.
Qed.

Lemma deleteProduct_first :
  deleteProduct {[ "id" := id ]} (pre ++ p :: post) =
  Respond {| status := 204; res_body := BodyEmpty |} (pre ++ post).
Proof.
  unfold deleteProduct, splice1.
  rewrite (findIndex_first _ _ _ _ (no_id_is _ _ Hpre) (has_id_is _ _ Hp)).
  by rewrite delete_middle.
Qed.
End FirstOccurrence.

(** C10: let [p] be the first product of the array whose id is [id], with
    [pre] before it and [post] after it (where further products with the
    same id may be).  A GET of [/api/products/id] returns [p]; a PUT with a
    valid body puts the new record in the place of [p]; a DELETE removes
    [p]; [pre] and [post] are left as they were, in their order. *)
Theorem id_addresses_first_occurrence uuid req pre p post id :
  Forall (fun q => q !! "id" ≠ Some (JStr id)) pre →
  p !! "id" = Some (JStr id) →
  id ≠ "" →
  path req = ["api"; "products"; id] →
  x_api_key req = Some "123456" →
  (method req = GET →
   handle uuid req (pre ++ p :: post) =
   {| response := {| status := 200; res_body := BodyProduct p |};
      store := pre ++ p :: post;
      trace := [Authenticate; GetProduct] |}) ∧
  (method req = PUT → validateProduct req (pre ++ p :: post) = Next →
   handle uuid req (pre ++ p :: post) =
   {| response :=
        {| status := 200;
           res_body := BodyProduct (spread_over_id (Some id) (req_body req)) |};
      store := pre ++ spread_over_id (Some id) (req_body req) :: post;
      trace := [Authenticate; ValidateProduct; ReplaceProduct] |}) ∧
  (method req = DELETE →
   handle uuid req (pre ++ p :: post) =
   {| response := {| status := 204; res_body := BodyEmpty |};
      store := pre ++ post;
      trace := [Authenticate; DeleteProduct] |}).
Proof.
  intros Hpre Hp Hid Hpath Hk. split; [|split].
  - intros Hm. rewrite (route_get_id uuid req _ Hk id Hm Hpath Hid).
    by rewrite (getProduct_first id pre p post Hpre Hp).
  - intros Hm Hv. rewrite (route_replace uuid req _ Hk id Hm Hpath Hid), Hv.
    by rewrite (replaceProduct_first id pre p post Hpre Hp req).
  - intros Hm. rewrite (route_delete uuid req _ Hk id Hm Hpath Hid).
    by rewrite (deleteProduct_first id pre p post Hpre Hp).
Qed.

Lemma id_addresses_first_occurrence_witness :
  let x := product "x" "Cap" "A" in
  let d1 := product "d" "First" "A" in
  let d2 := product "d" "Second" "B" in
  let req := request DELETE ["api"; "products"; "d"] ∅ ∅ in
  handle "u" req ([x] ++ d1 :: [d2; x]) =
  {| response := {| status := 204; res_body := BodyEmpty |};
     store := [x] ++ [d2; x];
     trace := [Authenticate; DeleteProduct] |}.
Proof.
  intros x d1 d2 req.
  apply (id_addresses_first_occurrence "u" req [x] d1 [d2; x] "d");
    try reflexivity.
  - repeat constructor. vm_compute. discriminate.
  - discriminate.
Defined.

(** ** Validation *)

Ltac not_in_trace H :=
  repeat (apply elem_of_cons in H as [H|H]; [discriminate|]);
  by apply elem_of_nil in H.

Lemma is_undefined_true v : is_undefined v = true ↔ v = None.
Proof. by destruct v. Qed.

Lemma JType_eqb_false a b : negb (JType_eqb a b) = true ↔ a ≠ b.
Proof. destruct a, b; simpl; split; congruence. Qed.

Lemma validateProduct_cases req products :
  (missing_field (req_body req) ∧
   validateProduct req products =
   Respond (json_error 400 "All fields are required") products) ∨
  (¬ missing_field (req_body req) ∧ wrong_type (req_body req) ∧
   validateProduct req products =
   Respond (json_error 400 "Invalid data types for price or inStock")
     products) ∨
  (¬ missing_field (req_body req) ∧ ¬ wrong_type (req_body req) ∧
   validateProduct req products = Next).
Proof.
  unfold validateProduct, missing_field, wrong_type.
  destruct (falsy (req_body req !! "name")) eqn:Hn; [left; auto|].
  destruct (falsy (req_body req !! "description")) eqn:Hd; [left; auto|].
  destruct (is_undefined (req_body req !! "price")) eqn:Hp;
    [apply is_undefined_true in Hp; left; auto 6|].
  destruct (falsy (req_body req !! "category")) eqn:Hc; [left; auto|].
  destruct (is_undefined (req_body req !! "inStock")) eqn:Hs;
    [apply is_undefined_true in Hs; left; auto 6|].
  right. cbn [orb].
  assert (¬ (false = true ∨ false = true ∨ false = true ∨
             req_body req !! "price" = None ∨
             req_body req !! "inStock" = None)) as Hok.
  { intros [|[|[|[H|H]]]]; try discriminate;
      apply is_undefined_true in H; congruence. }
  destruct (negb (JType_eqb (typeof (req_body req !! "price")) TNumber))
    eqn:Hpt.
  { apply JType_eqb_false in Hpt. left. auto. }
  destruct (negb (JType_eqb (typeof (req_body req !! "inStock")) TBoolean))
    eqn:Hst.
  { apply JType_eqb_false in Hst. left. auto. }
  right. cbn [orb]. split; [done|]. split; [|done].
  intros [H|H]; apply JType_eqb_false in H; congruence.
Qed.

(** C7: for a POST or PUT that passed authentication, the answer is 400
    "All fields are required" exactly when a required field is missing
    (price 0 and inStock false count as present); when none is missing the
    answer is 400 "Invalid data types for price or inStock" exactly when
    price is not a number or inStock is not a boolean; and the route
    handler runs exactly when neither is the case. *)
Theorem validation_outcomes uuid req products :
  x_api_key req = Some "123456" →
  (method req = POST ∧ path req = ["api"; "products"]) ∨
  (method req = PUT ∧ ∃ id, id ≠ "" ∧ path req = ["api"; "products"; id]) →
  (response (handle uuid req products) =
     json_error 400 "All fields are required" ↔
   missing_field (req_body req)) ∧
  (¬ missing_field (req_body req) →
   (response (handle uuid req products) =
      json_error 400 "Invalid data types for price or inStock" ↔
    wrong_type (req_body req))) ∧
  (CreateProduct ∈ trace (handle uuid req products) ∨
   ReplaceProduct ∈ trace (handle uuid req products) ↔
   ¬ missing_field (req_body req) ∧ ¬ wrong_type (req_body req)).
Proof.
  intros Hk Hroute.
  assert (∃ o t,
    (handle uuid req products =
       match validateProduct req products with
       | Next => answered (o, t) products []
       | o' => answered (o', [Authenticate; ValidateProduct]) products []
       end) ∧
    (∃ c b st, o = Respond {| status := c; res_body := b |} st ∧ c ≠ 400) ∧
    (CreateProduct ∈ t ∨ ReplaceProduct ∈ t)) as (o & t & Hh & Ho & Ht).
  { destruct Hroute as [[Hm Hp] | [Hm (id & Hid & Hp)]].
    - eexists _, _. split; [by apply route_create|]. split.
      + unfold createProduct. by eexists _, _, _.
      + left. by do 2 right; left.
    - eexists _, _. split; [by apply (route_replace _ _ _ Hk id)|]. split.
      + unfold replaceProduct. destruct (findIndex _ _); by eexists _, _, _.
      + right. by do 2 right; left. }
  destruct Ho as (c & b & st & -> & Hc).
  destruct (validateProduct_cases req products)
    as [(Hmiss & Hv) | [(Hmiss & Hty & Hv) | (Hmiss & Hty & Hv)]];
    rewrite Hh, Hv; simpl.
  - split; [done|]. split; [done|].
    split; [|tauto]. intros [H|H]; not_in_trace H.
  - split; [split; [discriminate | done]|]. split; [done|].
    split; [|tauto]. intros [H|H]; not_in_trace H.
  - split; [split; [unfold json_error; congruence | done]|].
    split; [split; [unfold json_error; congruence | done]|].
    done.
Qed.

Lemma validation_outcomes_witness :
  let req := request POST ["api"; "products"] ∅ (fields "Hat" "A") in
  (response (handle "u" req []) = json_error 400 "All fields are required" ↔
   missing_field (req_body req)) ∧
  (¬ missing_field (req_body req) →
   (response (handle "u" req []) =
      json_error 400 "Invalid data types for price or inStock" ↔
    wrong_type (req_body req))) ∧
  (CreateProduct ∈ trace (handle "u" req []) ∨
   ReplaceProduct ∈ trace (handle "u" req []) ↔
   ¬ missing_field (req_body req) ∧ ¬ wrong_type (req_body req)).
Proof.
  intros req. apply (validation_outcomes "u" req []).
  - reflexivity.
  - left. split; reflexivity.
Defined.

(** ** Listing *)

Lemma slice_from_count {A} (l : list A) (s n : Z) :
  0 ≤ s → 0 ≤ n →
  slice l (Some s) (Some (s + n)) = take (Z.to_nat n) (drop (Z.to_nat s) l).
Proof.
  intros Hs Hn. unfold slice, relative_index, to_integer. simpl.
  destruct (Z.ltb_spec s 0) as [|_]; [lia|].
  destruct (Z.ltb_spec (s + n) 0) as [|_]; [lia|].
  destruct (Z_le_gt_dec (Z.of_nat (length l)) s) as [Hge|Hlt].
  - rewrite !drop_ge by lia. by rewrite !take_nil.
  - rewrite (Z.min_l s) by lia.
    destruct (Z_le_gt_dec (s + n) (Z.of_nat (length l))) as [Hin|Hout].
    + rewrite Z.min_l by lia. f_equal. lia.
    + rewrite Z.min_r by lia.
      rewrite !take_ge; [done | rewrite length_drop; lia..].
Qed.

Lemma filter_exn_same_category c (products : Store) :
  Forall string_category products →
  filter_exn
    (fun p =>
       let! s := call_toLowerCase (p !! "category") in
       Ret (String.eqb s (toLowerCase c)))
    products =
  Ret (List.filter (same_category c) products).
Proof.
  induction 1 as [|p l [s Hs] _ IH]; [done|].
  cbn [filter_exn List.filter]. unfold same_category at 1.
  rewrite Hs, IH. simpl. by destruct (String.eqb _ _).
Qed.

(** C8, as stated, fails: with [limit=-1] over three products the data are
    the first two products ([slice(0, -1)]), not a page of at most [limit]
    items. *)
Lemma listing_negative_limit :
  let products := [product "1" "Cap" "A"; product "2" "Hat" "A";
                   product "3" "Tie" "B"] in
  let req := request GET ["api"; "products"] {[ "limit" := "-1" ]} ∅ in
  response (handle "u" req products) =
    {| status := 200;
       res_body := BodyList 3 (Some 1) (Some (-1))
                     [product "1" "Cap" "A"; product "2" "Hat" "A"] |} ∧
  ¬ listing_as_stated req products.
Proof.
  intros products req. split; [by vm_compute|].
  intros H. specialize (H "u" 1 (-1) eq_refl eq_refl).
  vm_compute in H. discriminate H.
Qed.

(** The example of the specification: [page=2&limit=1] over three products
    returns the second one. *)
Lemma listing_second_of_three :
  response (handle "u"
              (request GET ["api"; "products"]
                 {[ "page" := "2"; "limit" := "1" ]} ∅)
              [product "1" "Cap" "A"; product "2" "Hat" "A";
               product "3" "Tie" "B"]) =
  {| status := 200;
     res_body := BodyList 3 (Some 2) (Some 1) [product "2" "Hat" "A"] |}.
Proof. by vm_compute. Qed.

(** ** How a request can change the array, and the ids when the body
    carries none *)

Lemma run_handler_change h uuid params req products r products' :
  run_handler h uuid params req products = Respond r products' →
  store_change uuid req products products'.
Proof.
  destruct h; cbn [run_handler].
  - unfold authenticate. destruct (negb _); [|done].
    intros [= <- <-]. constructor.
  - unfold validateProduct. destruct (_ || _); [intros [= <- <-]; constructor|].
    destruct (_ || _); [|done]. intros [= <- <-]. constructor.
  - unfold listProducts. destruct (filter_category _ _); [|done].
    intros [= <- <-]. constructor.
  - unfold getProduct. destruct (find _ _); intros [= <- <-]; constructor.
  - unfold createProduct. intros [= <- <-]. constructor.
  - unfold replaceProduct. destruct (findIndex _ _) eqn:Hi.
    + intros [= <- <-]. by econstructor.
    + intros [= <- <-]. constructor.
  - unfold deleteProduct, splice1. destruct (findIndex _ _) eqn:Hi.
    + intros [= <- <-]. by econstructor.
    + intros [= <- <-]. constructor.
  - unfold searchProducts. destruct (truthy_str _).
    + destruct (filter_exn _ _); [|done]. intros [= <- <-]. constructor.
    + intros [= <- <-]. constructor.
  - unfold productStats. intros [= <- <-]. constructor.
Qed.

Lemma run_stack_change hs uuid params req products r products' t :
  run_stack hs uuid params req products = (Respond r products', t) →
  store_change uuid req products products'.
Proof.
  revert t. induction hs as [|h hs IH]; intros t; [done|].
  rewrite run_stack_cons.
  destruct (run_handler h uuid params req products) eqn:Hh.
  - destruct (run_stack hs uuid params req products) as [o t'].
    cbn [fst snd]. intros [= -> <-]. by eapply IH.
  - intros [= <- <- <-]. by eapply run_handler_change.
  - done.
Qed.

Lemma dispatch_change rs uuid req products ran :
  store_change uuid req products (store (dispatch rs uuid req products ran)).
Proof.
  revert ran. induction rs as [|r rs IH]; intros ran; cbn [dispatch].
  - constructor.
  - destruct (route_matches r req) as [params|]; [|apply IH].
    destruct (run_stack _ _ _ _ _) as [[| |] t] eqn:Hs; cbn [store].
    + apply IH.
    + by eapply run_stack_change.
    + constructor.
Qed.

Lemma findIndex_Some {A} (f : A → bool) l i :
  findIndex f l = Some i → ∃ x, l !! i = Some x ∧ f x = true.
Proof.
  revert i. induction l as [|y l IH]; intros i; [done|]. simpl.
  destruct (f y) eqn:Hy.
  - intros [= <-]. by exists y.
  - destruct (findIndex f l) as [j|]; [|done]. intros [= <-].
    by apply IH.
Qed.

Lemma id_is_lookup params (p : gmap string JValue) :
  id_is params p = true → p !! "id" = JStr <$> params !! "id".
Proof.
  unfold id_is. destruct (params !! "id") as [i|]; simpl.
  - apply strict_eq_str_spec.
  - apply is_undefined_true.
Qed.

Lemma spread_over_id_lookup v (body : gmap string JValue) :
  body !! "id" = None → spread_over_id v body !! "id" = JStr <$> v.
Proof.
  intros Hb. unfold spread_over_id. rewrite lookup_union_r by done.
  destruct v; [apply lookup_singleton_eq | apply lookup_empty].
Qed.

(** X1: when the body of the request has no [id] and the generated uuid is
    not the id of a stored product, serving the request keeps the ids
    pairwise distinct. *)
Lemma handle_keeps_ids_distinct uuid req products :
  NoDup (ids products) →
  req_body req !! "id" = None →
  Some (JStr uuid) ∉ ids products →
  NoDup (ids (store (handle uuid req products))).
Proof.
  intros Hnd Hb Hfresh.
  unfold handle. generalize (dispatch_change routes uuid req products []).
  generalize (store (dispatch routes uuid req products [])).
  intros products' [| |params i Hi|params i Hi].
  - done.
  - unfold ids. rewrite fmap_app. apply NoDup_app. split; [done|].
    split; [|apply NoDup_singleton].
    intros x Hx Hx'. apply list_elem_of_singleton in Hx' as ->.
    by rewrite spread_over_id_fresh in Hx.
  - apply findIndex_Some in Hi as (x & Hx & Hf).
    apply id_is_lookup in Hf.
    unfold ids. rewrite list_fmap_insert, spread_over_id_lookup by done.
    rewrite <- Hf. rewrite list_insert_id; [done|].
    by rewrite list_lookup_fmap, Hx.
  - unfold ids. eapply sublist_NoDup; [exact Hnd|].
    apply fmap_sublist, sublist_delete.
Qed.

(** * Further properties *)

(** ** What one request can do to the array *)

Lemma Method_eqb_eq a b : Method_eqb a b = true → a = b.
Proof. by destruct a, b. Qed.

Lemma route_matches_Some r req params :
  route_matches r req = Some params →
  method req = route_method r ∧
  match_path (route_path r) (path req) = Some params.
Proof.
  unfold route_matches. destruct (Method_eqb _ _) eqn:Hm; [|done].
  apply Method_eqb_eq in Hm. by split.
Qed.

Lemma match_id_path_inv p params :
  match_path (products_path ++ [Param "id"]) p = Some params →
  ∃ id, id ≠ "" ∧ params = {[ "id" := id ]}.
Proof.
  destruct p as [|a [|b [|c [|d p]]]]; cbn [match_path products_path app];
    try done;
    repeat (destruct (String.eqb (toLowerCase _) (toLowerCase _)); try done).
  - destruct (String.eqb_spec c "") as [|Hc]; [done|].
    cbn [fmap option_fmap option_map]. intros [= <-]. by exists c.
  - by destruct (String.eqb c "").
Qed.

Lemma dispatch_cons r rs uuid req products ran :
  dispatch (r :: rs) uuid req products ran =
  match route_matches r req with
  | None => dispatch rs uuid req products ran
  | Some params =>
      match run_stack (route_stack r) uuid params req products with
      | (Next, t) => dispatch rs uuid req products (ran ++ t)
      | (Respond resp products', t) =>
          {| response := resp; store := products'; trace := ran ++ t |}
      | (Raise, t) =>
          {| response := json_error 500 "Something went wrong";
             store := products; trace := ran ++ t |}
      end
  end.
Proof. reflexivity. Qed.

Ltac enter_route :=
  rewrite dispatch_cons;
  match goal with
  | |- context [route_matches ?r ?req] =>
      let Hr := fresh "Hr" in
      let params := fresh "params" in
      destruct (route_matches r req) as [params|] eqn:Hr;
      [ apply route_matches_Some in Hr as [? Hr];
        cbn [route_method route_path route_stack] in *;
        rewrite !run_stack_cons; cbn [run_handler run_stack fst snd];
        match goal with
        | |- context [authenticate ?q ?st] =>
            destruct (decide (x_api_key q = Some "123456"));
            [ rewrite (authenticate_ok q st) by done
            | rewrite (authenticate_reject q st) by done; constructor ]
        end
      | clear Hr ]
  end.

Lemma handle_effect uuid req products :
  effect uuid req products (handle uuid req products).
Proof.
  unfold handle, routes.
  enter_route.
  { unfold listProducts. destruct (filter_category _ _); constructor. }
  enter_route.
  { unfold getProduct. destruct (find _ _); constructor. }
  enter_route.
  { destruct (validateProduct_cases req products)
      as [(_ & ->) | [(_ & _ & ->) | (_ & _ & Hv)]]; [constructor..|].
    rewrite Hv. unfold createProduct. by constructor. }
  enter_route.
  { destruct (validateProduct_cases req products)
      as [(_ & ->) | [(_ & _ & ->) | (_ & _ & Hv)]]; [constructor..|].
    rewrite Hv. apply match_id_path_inv in Hr as (id & Hid & ->).
    unfold replaceProduct. rewrite lookup_singleton_eq.
    destruct (findIndex _ _) as [i|] eqn:Hi; [|constructor].
    by eapply effect_replace. }
  enter_route.
  { apply match_id_path_inv in Hr as (id & Hid & ->).
    unfold deleteProduct, splice1.
    destruct (findIndex _ _) as [i|] eqn:Hi; [|constructor].
    by eapply effect_delete. }
  enter_route.
  { unfold searchProducts. destruct (truthy_str _); [|constructor].
    destruct (filter_exn _ _); constructor. }
  enter_route.
  { unfold productStats. constructor. }
  constructor.
Qed.

(** X2: serving a request leaves the array as it was unless the request
    carries the right key and is a POST or a PUT whose body passes
    [validateProduct], or a DELETE. *)
Theorem store_changes_only_by_valid_writes uuid req products :
  store (handle uuid req products) = products ∨
  (x_api_key req = Some "123456" ∧
   ((method req = POST ∧ validateProduct req products = Next) ∨
    (method req = PUT ∧ validateProduct req products = Next) ∨
    method req = DELETE)).
Proof.
  destruct (handle_effect uuid req products); [by left|right..]; auto.
Qed.

(** X3: a request that is answered with an error status (400 and above)
    leaves the array as it was. *)
Theorem error_responses_leave_store uuid req products :
  400 ≤ status (response (handle uuid req products)) →
  store (handle uuid req products) = products.
Proof.
  destruct (handle_effect uuid req products) as
    [resp t|resp t _ _ _ Hs|id i resp t _ _ _ _ Hs|id i resp t _ _ _ Hs];
    cbn [response store]; [done|rewrite Hs; lia..].
Qed.

Lemma error_responses_leave_store_witness :
  let products := [product "a" "Cap" "A"] in
  let put := request PUT ["api"; "products"; "a"] ∅
               {[ "name" := JStr "Hat"; "price" := JStr "12" ]} in
  store (handle "u" put products) = products.
Proof.
  intros products put.
  apply (error_responses_leave_store "u" put products).
  by vm_compute.
Defined.

(** ** The stored records are validated records *)

Lemma missing_field_spread v (body : gmap string JValue) :
  missing_field (spread_over_id v body) ↔ missing_field body.
Proof. unfold missing_field. by rewrite !spread_over_id_other. Qed.

Lemma wrong_type_spread v (body : gmap string JValue) :
  wrong_type (spread_over_id v body) ↔ wrong_type body.
Proof. unfold wrong_type. by rewrite !spread_over_id_other. Qed.

Lemma spread_over_id_has_id i (body : gmap string JValue) :
  is_Some (spread_over_id (Some i) body !! "id").
Proof.
  destruct (body !! "id") as [v|] eqn:Hb.
  - exists v. by apply spread_over_id_body.
  - exists (JStr i). by apply spread_over_id_fresh.
Qed.

Lemma validated_spread i req products :
  validateProduct req products = Next →
  well_formed (spread_over_id (Some i) (req_body req)).
Proof.
  intros Hv.
  destruct (validateProduct_cases req products)
    as [(_ & H) | [(_ & _ & H) | (Hm & Ht & _)]]; [congruence..|].
  split; [apply spread_over_id_has_id|].
  by rewrite missing_field_spread, wrong_type_spread.
Qed.

(** X4: every record of an array that POST, PUT and DELETE requests have
    produced from the empty array has an [id] and the five required
    fields as [validateProduct] wants them: name, description and category
    truthy, price a number, inStock a boolean. *)
Theorem reachable_products_well_formed products :
  reachable products → Forall well_formed products.
Proof.
  induction 1 as [|products uuid req _ IH _]; [constructor|].
  destruct (handle_effect uuid req products) as
    [resp t|resp t _ _ Hv _|id i resp t _ _ Hv _ _|id i resp t _ _ _ _];
    cbn [store].
  - done.
  - apply Forall_app. split; [done|].
    apply Forall_singleton. by eapply validated_spread.
  - apply Forall_insert; [done|]. by eapply validated_spread.
  - by apply Forall_delete.
Qed.

Lemma reachable_products_well_formed_witness :
  let post := request POST ["api"; "products"] ∅ (fields "Hat" "A") in
  Forall well_formed (store (handle "uuid-1" post [])).
Proof.
  intros post. apply reachable_products_well_formed.
  apply reachable_step; [apply reachable_start | by left].
Defined.

(** ** Round trips *)

Lemma validateProduct_store req products products' :
  validateProduct req products = Next → validateProduct req products' = Next.
Proof.
  unfold validateProduct.
  destruct (_ || _); [done|]. by destruct (_ || _).
Qed.

Lemma findIndex_insert {A} (f : A → bool) l i x :
  findIndex f l = Some i → f x = true →
  findIndex f (<[i := x]> l) = Some i.
Proof.
  revert i. induction l as [|y l IH]; intros i; [done|]. simpl.
  destruct (f y) eqn:Hy.
  - intros [= <-] Hx. simpl. by rewrite Hx.
  - destruct (findIndex f l) as [j|] eqn:Hj; [|done].
    intros [= <-] Hx. simpl. by rewrite Hy, (IH j).
Qed.

(** X5: after a POST that passes validation, with a body that has no [id]
    and a generated uuid that no stored product has as its id, a GET of
    [/api/products/<uuid>] returns the record that the POST returned; its
    id is the uuid and each other field is the field of the body. *)
Theorem create_then_fetch uuid uuid' post get products :
  method post = POST → path post = ["api"; "products"] →
  x_api_key post = Some "123456" →
  validateProduct post products = Next →
  req_body post !! "id" = None →
  uuid ≠ "" →
  Forall (fun p => p !! "id" ≠ Some (JStr uuid)) products →
  method get = GET → path get = ["api"; "products"; uuid] →
  x_api_key get = Some "123456" →
  ∃ newProduct,
    response (handle uuid post products) =
      {| status := 201; res_body := BodyProduct newProduct |} ∧
    response (handle uuid' get (store (handle uuid post products))) =
      {| status := 200; res_body := BodyProduct newProduct |} ∧
    newProduct !! "id" = Some (JStr uuid) ∧
    ∀ k, k ≠ "id" → newProduct !! k = req_body post !! k.
Proof.
  intros Hm Hp Hk Hv Hb Hu Hfresh Hm' Hp' Hk'.
  exists (spread_over_id (Some uuid) (req_body post)).
  rewrite (route_create uuid post products Hk Hm Hp), Hv.
  unfold createProduct. cbn [answered response store].
  rewrite (route_get_id uuid' get _ Hk' uuid Hm' Hp' Hu).
  rewrite (getProduct_first uuid products _ [] Hfresh
             (spread_over_id_fresh uuid _ Hb)).
  split; [done|]. split; [done|].
  split; [by apply spread_over_id_fresh|].
  intros k. apply spread_over_id_other.
Qed.

Lemma create_then_fetch_witness :
  let post := request POST ["api"; "products"] ∅ (fields "Hat" "A") in
  let get := request GET ["api"; "products"; "uuid-2"] ∅ ∅ in
  let products := [product "uuid-1" "Cap" "A"] in
  ∃ newProduct,
    response (handle "uuid-2" post products) =
      {| status := 201; res_body := BodyProduct newProduct |} ∧
    response (handle "uuid-3" get (store (handle "uuid-2" post products))) =
      {| status := 200; res_body := BodyProduct newProduct |} ∧
    newProduct !! "id" = Some (JStr "uuid-2") ∧
    ∀ k, k ≠ "id" → newProduct !! k = req_body post !! k.
Proof.
  intros post get products.
  apply (create_then_fetch "uuid-2" "uuid-3" post get products);
    try reflexivity; try discriminate.
  repeat constructor. vm_compute. discriminate.
Defined.

(** X6: after a POST that passes validation, with a body that has no [id]
    and a generated uuid that no stored product has as its id, a DELETE of
    [/api/products/<uuid>] answers 204 and leaves the array as it was
    before the POST. *)
Theorem create_then_delete_restores uuid uuid' post del products :
  method post = POST → path post = ["api"; "products"] →
  x_api_key post = Some "123456" →
  validateProduct post products = Next →
  req_body post !! "id" = None →
  uuid ≠ "" →
  Forall (fun p => p !! "id" ≠ Some (JStr uuid)) products →
  method del = DELETE → path del = ["api"; "products"; uuid] →
  x_api_key del = Some "123456" →
  handle uuid' del (store (handle uuid post products)) =
  {| response := {| status := 204; res_body := BodyEmpty |};
     store := products;
     trace := [Authenticate; DeleteProduct] |}.
Proof.
  intros Hm Hp Hk Hv Hb Hu Hfresh Hm' Hp' Hk'.
  rewrite (route_create uuid post products Hk Hm Hp), Hv.
  unfold createProduct. cbn [answered store].
  rewrite (route_delete uuid' del _ Hk' uuid Hm' Hp' Hu).
  rewrite (deleteProduct_first uuid products _ [] Hfresh
             (spread_over_id_fresh uuid _ Hb)).
  by rewrite app_nil_r.
Qed.

Lemma create_then_delete_restores_witness :
  let post := request POST ["api"; "products"] ∅ (fields "Hat" "A") in
  let del := request DELETE ["api"; "products"; "uuid-2"] ∅ ∅ in
  let products := [product "uuid-1" "Cap" "A"] in
  handle "uuid-3" del (store (handle "uuid-2" post products)) =
  {| response := {| status := 204; res_body := BodyEmpty |};
     store := products;
     trace := [Authenticate; DeleteProduct] |}.
Proof.
  intros post del products.
  apply (create_then_delete_restores "uuid-2" "uuid-3" post del products);
    try reflexivity; try discriminate.
  repeat constructor. vm_compute. discriminate.
Defined.

(** X7: when one stored product has the id, a DELETE of it answers 204,
    and afterwards a GET and a second DELETE of the same id both answer
    404 "Product not found" and change nothing. *)
Theorem delete_then_not_found uuid del get pre p post id :
  Forall (fun q => q !! "id" ≠ Some (JStr id)) pre →
  p !! "id" = Some (JStr id) →
  Forall (fun q => q !! "id" ≠ Some (JStr id)) post →
  id ≠ "" →
  method del = DELETE → path del = ["api"; "products"; id] →
  x_api_key del = Some "123456" →
  method get = GET → path get = ["api"; "products"; id] →
  x_api_key get = Some "123456" →
  store (handle uuid del (pre ++ p :: post)) = pre ++ post ∧
  status (response (handle uuid del (pre ++ p :: post))) = 204 ∧
  response (handle uuid get (pre ++ post)) =
    json_error 404 "Product not found" ∧
  handle uuid del (pre ++ post) =
    {| response := json_error 404 "Product not found";
       store := pre ++ post;
       trace := [Authenticate; DeleteProduct] |}.
Proof.
  intros Hpre Hp Hpost Hid Hm Hpath Hk Hm' Hpath' Hk'.
  assert (Forall (fun q => q !! "id" ≠ Some (JStr id)) (pre ++ post)) as Hno
    by (by apply Forall_app).
  rewrite !(route_delete uuid del _ Hk id Hm Hpath Hid).
  rewrite (deleteProduct_first id pre p post Hpre Hp).
  rewrite (route_get_id uuid get _ Hk' id Hm' Hpath' Hid).
  unfold getProduct, deleteProduct.
  rewrite (find_none _ _ (no_id_is _ _ Hno)).
  by rewrite (findIndex_none _ _ (no_id_is _ _ Hno)).
Qed.

Lemma delete_then_not_found_witness :
  let del := request DELETE ["api"; "products"; "b"] ∅ ∅ in
  let get := request GET ["api"; "products"; "b"] ∅ ∅ in
  let a := product "a" "Cap" "A" in
  let b := product "b" "Hat" "A" in
  let c := product "c" "Tie" "B" in
  store (handle "u" del ([a] ++ b :: [c])) = [a] ++ [c] ∧
  status (response (handle "u" del ([a] ++ b :: [c]))) = 204 ∧
  response (handle "u" get ([a] ++ [c])) =
    json_error 404 "Product not found" ∧
  handle "u" del ([a] ++ [c]) =
    {| response := json_error 404 "Product not found";
       store := [a] ++ [c];
       trace := [Authenticate; DeleteProduct] |}.
Proof.
  intros del get a b c.
  apply (delete_then_not_found "u" del get [a] b [c] "b");
    try reflexivity; try discriminate;
    repeat constructor; vm_compute; discriminate.
Defined.

Lemma replaceProduct_at id req products i :
  findIndex (id_is {[ "id" := id ]}) products = Some i →
  replaceProduct {[ "id" := id ]} req products =
  Respond
    {| status := 200;
       res_body :=
         from_option BodyProduct BodyEmpty
           (<[i := spread_over_id (Some id) (req_body req)]> products !! i) |}
    (<[i := spread_over_id (Some id) (req_body req)]> products).
Proof.
  intros Hi. unfold replaceProduct. by rewrite Hi, lookup_singleton_eq.
Qed.

Lemma replaceProduct_nowhere id req products :
  findIndex (id_is {[ "id" := id ]}) products = None →
  replaceProduct {[ "id" := id ]} req products =
  Respond (json_error 404 "Product not found") products.
Proof. intros Hi. unfold replaceProduct. by rewrite Hi. Qed.

(** X8: a PUT whose body has no [id], sent twice, leaves the array and
    gets the answer of the PUT sent once. *)
Theorem replace_twice_is_replace_once uuid uuid' req products id :
  method req = PUT → path req = ["api"; "products"; id] → id ≠ "" →
  x_api_key req = Some "123456" →
  req_body req !! "id" = None →
  handle uuid' req (store (handle uuid req products)) =
  handle uuid req products.
Proof.
  intros Hm Hp Hid Hk Hb.
  rewrite !(route_replace _ req _ Hk id Hm Hp Hid).
  destruct (validateProduct req products) as [|r st|] eqn:Hv.
  - rewrite (validateProduct_store req products _ Hv).
    destruct (findIndex (id_is {[ "id" := id ]}) products) as [i|] eqn:Hi.
    + rewrite (replaceProduct_at id req products i Hi).
      cbn [answered store].
      rewrite (replaceProduct_at id req _ i)
        by (apply findIndex_insert;
            [done | apply has_id_is; by apply spread_over_id_fresh]).
      by rewrite list_insert_insert_eq.
    + rewrite (replaceProduct_nowhere id req products Hi).
      cbn [answered store].
      by rewrite (replaceProduct_nowhere id req products Hi).
  - assert (st = products) as ->.
    { revert Hv. unfold validateProduct.
      destruct (_ || _); [by intros [= _ <-]|].
      destruct (_ || _); [by intros [= _ <-]|done]. }
    cbn [answered store]. by rewrite Hv.
  - revert Hv. unfold validateProduct.
    destruct (_ || _); [done|]. by destruct (_ || _).
Qed.

Lemma replace_twice_is_replace_once_witness :
  let put := request PUT ["api"; "products"; "b"] ∅ (fields "Hat" "B") in
  let products := [product "a" "Cap" "A"; product "b" "Old" "A"] in
  handle "u2" put (store (handle "u1" put products)) =
  handle "u1" put products.
Proof.
  intros put products.
  apply (replace_twice_is_replace_once "u1" "u2" put products "b");
    try reflexivity; discriminate.
Defined.

(** ** Replace *)

(** X9: for a PUT that passes validation: when no stored product has the
    id of the path, the answer is 404 and nothing is stored (PUT never
    creates); when [p] is the first product with that id, the record put
    in its place has every field of the body and no other, except [id],
    which is the [id] of the body when it has one and the id of the path
    when it has none. *)
Theorem replace_record_shape uuid req products id :
  method req = PUT → path req = ["api"; "products"; id] → id ≠ "" →
  x_api_key req = Some "123456" →
  validateProduct req products = Next →
  (Forall (fun q => q !! "id" ≠ Some (JStr id)) products →
   handle uuid req products =
   {| response := json_error 404 "Product not found";
      store := products;
      trace := [Authenticate; ValidateProduct; ReplaceProduct] |}) ∧
  (∀ pre p post,
     products = pre ++ p :: post →
     Forall (fun q => q !! "id" ≠ Some (JStr id)) pre →
     p !! "id" = Some (JStr id) →
     ∃ record,
       handle uuid req products =
       {| response := {| status := 200; res_body := BodyProduct record |};
          store := pre ++ record :: post;
          trace := [Authenticate; ValidateProduct; ReplaceProduct] |} ∧
       (∀ k, k ≠ "id" → record !! k = req_body req !! k) ∧
       record !! "id" = Some (default (JStr id) (req_body req !! "id"))).
Proof.
  intros Hm Hp Hid Hk Hv.
  rewrite (route_replace uuid req products Hk id Hm Hp Hid), Hv. split.
  - intros Hno. by rewrite (replaceProduct_missing id req products Hno).
  - intros pre p post -> Hpre Hpid.
    exists (spread_over_id (Some id) (req_body req)).
    rewrite (replaceProduct_first id pre p post Hpre Hpid req).
    split; [done|]. split; [intros k; apply spread_over_id_other|].
    destruct (req_body req !! "id") as [v|] eqn:Hb; cbn [from_option].
    + by apply spread_over_id_body.
    + by apply spread_over_id_fresh.
Qed.

Lemma replace_record_shape_witness :
  let old : gmap string JValue := <["color" := JStr "red"]> (product "b" "Old" "A") in
  let put := request PUT ["api"; "products"; "b"] ∅ (fields "Hat" "B") in
  ∃ record,
    handle "u" put ([product "a" "Cap" "A"] ++ old :: []) =
    {| response := {| status := 200; res_body := BodyProduct record |};
       store := [product "a" "Cap" "A"] ++ record :: [];
       trace := [Authenticate; ValidateProduct; ReplaceProduct] |} ∧
    (∀ k, k ≠ "id" → record !! k = req_body put !! k) ∧
    record !! "id" = Some (default (JStr "b") (req_body put !! "id")).
Proof.
  intros old put.
  refine (proj2 (replace_record_shape "u" put _ "b" _ _ _ _ _)
            [product "a" "Cap" "A"] old [] _ _ _);
    try reflexivity; try discriminate.
  repeat constructor. vm_compute. discriminate.
Defined.

(** ** Distinct ids *)

Lemma handle_keeps_ids_distinct_witness :
  let post := request POST ["api"; "products"] ∅ (fields "Hat" "A") in
  let products := [product "uuid-1" "Cap" "A"; product "uuid-2" "Tie" "B"] in
  NoDup (ids (store (handle "uuid-3" post products))).
Proof.
  intros post products.
  apply (handle_keeps_ids_distinct "uuid-3" post products).
  - unfold ids, products. rewrite !fmap_cons, fmap_nil.
    repeat (apply NoDup_cons; split;
            [rewrite ?elem_of_cons, elem_of_nil; vm_compute; intuition discriminate|]).
    apply NoDup_nil_2.
  - reflexivity.
  - unfold ids, products. rewrite !fmap_cons, fmap_nil.
    rewrite !elem_of_cons, elem_of_nil. vm_compute. intuition discriminate.
Defined.

(** ** Listing: defaults, bounds and failures *)

Lemma filter_category_strings category (products : Store) :
  (is_Some (truthy_str category) → Forall string_category products) →
  filter_category category products = Ret (filtered_by category products).
Proof.
  intros Hcat. unfold filter_category, filtered_by.
  destruct (truthy_str category) as [c|]; [|done].
  apply filter_exn_same_category. by apply Hcat.
Qed.

Lemma listing_response uuid req products :
  method req = GET → path req = ["api"; "products"] →
  x_api_key req = Some "123456" →
  (is_Some (truthy_str (query req !! "category")) →
   Forall string_category products) →
  handle uuid req products =
  {| response :=
       {| status := 200;
          res_body :=
            BodyList (length (filtered_by (query req !! "category") products))
              (int_param (query req) "page" 1)
              (int_param (query req) "limit" 10)
              (slice (filtered_by (query req !! "category") products)
                 (num_mul (num_sub (int_param (query req) "page" 1) (Some 1))
                    (int_param (query req) "limit" 10))
                 (num_add
                    (num_mul
                       (num_sub (int_param (query req) "page" 1) (Some 1))
                       (int_param (query req) "limit" 10))
                    (int_param (query req) "limit" 10))) |};
     store := products;
     trace := [Authenticate; ListProducts] |}.
Proof.
  intros Hm Hp Hk Hcat.
  rewrite (route_list uuid req products Hk Hm Hp).
  unfold listProducts. by rewrite (filter_category_strings _ _ Hcat).
Qed.

Lemma slice_sublist {A} (l : list A) a b : slice l a b `sublist_of` l.
Proof.
  unfold slice. etrans; [apply sublist_take | apply sublist_drop].
Qed.

Lemma slice_not_numeric {A} (l : list A) : slice l None None = [].
Proof.
  unfold slice, relative_index, to_integer. simpl.
  rewrite Z.min_l by lia. by rewrite take_0.
Qed.

Lemma slice_length_le {A} (l : list A) (s n : Z) :
  0 ≤ n → (length (slice l (Some s) (Some (s + n)%Z)) ≤ Z.to_nat n)%nat.
Proof.
  intros Hn. unfold slice, relative_index, to_integer. simpl.
  rewrite length_take.
  destruct (Z.ltb_spec s 0), (Z.ltb_spec (s + n) 0); lia.
Qed.

Lemma ascii_listing_strings category (products : Store) :
  ascii_listing category products →
  is_Some (truthy_str category) → Forall string_category products.
Proof.
  intros Ha [c Hc]. destruct (Ha c Hc) as [_ Hall].
  eapply Forall_impl; [exact Hall|]. intros p (s & Hs & _). by exists s.
Qed.

(** C8, amended: for a GET of [/api/products] with the right key, whose
    body the JSON parser accepted, and whose [category], when it is given
    and not empty, is an ASCII string as are then all stored categories:
    the answer is 200 and, whatever [page] and [limit] are, [total] is the
    number of products whose category equals [category] letter case apart
    (of all products when [category] is absent or empty); and when [page]
    and [limit] (1 and 10 when absent) are read by parseInt as integers
    with [1 <= page <= max_safe], [0 <= limit] and
    [page * limit <= max_safe], the answer gives them back and [data] is
    that list after skipping [(page-1)*limit] items and taking up to
    [limit]. *)
Theorem listing_filters_then_paginates uuid inc req products :
  accepted inc = Some req →
  method req = GET → path req = ["api"; "products"] →
  x_api_key req = Some "123456" →
  ascii_listing (query req !! "category") products →
  ∃ page' limit' data,
    serve uuid inc products =
    {| response :=
         {| status := 200;
            res_body :=
              BodyList
                (length (filtered_by (query req !! "category") products))
                page' limit' data |};
       store := products;
       trace := [Authenticate; ListProducts] |} ∧
    ∀ page limit,
      int_param (query req) "page" 1 = Some page →
      int_param (query req) "limit" 10 = Some limit →
      1 ≤ page → 0 ≤ limit →
      page ≤ max_safe → page * limit ≤ max_safe →
      page' = Some page ∧ limit' = Some limit ∧
      data = page_of page limit
               (filtered_by (query req !! "category") products).
Proof.
  intros Hacc Hm Hp Hk Hascii.
  rewrite (serve_accepted uuid inc req products Hacc).
  rewrite (listing_response uuid req products Hm Hp Hk
             (ascii_listing_strings _ _ Hascii)).
  eexists _, _, _. split; [reflexivity|].
  intros page limit Hpage Hlimit H1 H0 _ _. rewrite Hpage, Hlimit.
  split; [done|]. split; [done|].
  cbn [num_sub num_mul num_add mbind option_bind].
  by rewrite slice_from_count by nia.
Qed.

Lemma listing_filters_then_paginates_witness :
  let products := [product "1" "Cap" "A"; product "2" "Hat" "a";
                   product "3" "Tie" "B"] in
  let inc := {| in_method := GET; in_path := ["api"; "products"];
                in_key := Some "123456";
                in_query := {[ "category" := "A"; "page" := "2";
                               "limit" := "1" ]};
                in_body := Some ∅ |} in
  ∃ page' limit' data,
    serve "u" inc products =
    {| response :=
         {| status := 200;
            res_body :=
              BodyList
                (length (filtered_by (in_query inc !! "category") products))
                page' limit' data |};
       store := products;
       trace := [Authenticate; ListProducts] |} ∧
    ∀ page limit,
      int_param (in_query inc) "page" 1 = Some page →
      int_param (in_query inc) "limit" 10 = Some limit →
      1 ≤ page → 0 ≤ limit →
      page ≤ max_safe → page * limit ≤ max_safe →
      page' = Some page ∧ limit' = Some limit ∧
      data = page_of page limit
               (filtered_by (in_query inc !! "category") products).
Proof.
  intros products inc.
  apply (listing_filters_then_paginates "u" inc _ products eq_refl);
    try reflexivity.
  intros c Hc. vm_compute in Hc. injection Hc as <-.
  split; [reflexivity|]. repeat constructor; by eexists.
Defined.

(** X10: a listing with no [page], [limit] and [category] returns page 1
    with limit 10: the first ten products in their order, and the number
    of all products as [total]. *)
Theorem listing_defaults uuid req products :
  method req = GET → path req = ["api"; "products"] →
  x_api_key req = Some "123456" →
  query req !! "category" = None →
  query req !! "page" = None → query req !! "limit" = None →
  response (handle uuid req products) =
  {| status := 200;
     res_body := BodyList (length products) (Some 1) (Some 10)
                   (take 10 products) |}.
Proof.
  intros Hm Hp Hk Hc Hpage Hlimit.
  rewrite (listing_response uuid req products Hm Hp Hk)
    by (rewrite Hc; by intros [? ?]).
  unfold int_param, filtered_by. rewrite Hc, Hpage, Hlimit.
  cbn [response truthy_str num_sub num_mul num_add mbind option_bind].
  by rewrite (slice_from_count products ((1 - 1) * 10) 10) by lia.
Qed.

Lemma listing_defaults_witness :
  let products := [product "1" "Cap" "A"; product "2" "Hat" "A"] in
  response (handle "u" (request GET ["api"; "products"] ∅ ∅) products) =
  {| status := 200;
     res_body := BodyList (length products) (Some 1) (Some 10)
                   (take 10 products) |}.
Proof.
  intros products.
  apply (listing_defaults "u" (request GET ["api"; "products"] ∅ ∅) products);
    reflexivity.
Defined.

Lemma not_a_number_param q k d : not_a_number q k → int_param q k d = None.
Proof. intros (s & Hs & _ & Hnan). unfold int_param. by rewrite Hs. Qed.

(** X11: for a GET of [/api/products] with the right key, whose body the
    JSON parser accepted, and whose [category], when given and not empty,
    is an ASCII string as are then the stored categories: the answer is
    200, [total] is the number of filtered products and [data] is a part of
    the filtered list in its order; [data] is empty when [page] or [limit]
    is given as an ASCII string that parseInt reads as NaN, and has at
    most [limit] items when [limit] is read as an integer from 0 to
    [max_safe], whatever [page] is. *)
Theorem listing_page_bounds uuid inc req products :
  accepted inc = Some req →
  method req = GET → path req = ["api"; "products"] →
  x_api_key req = Some "123456" →
  ascii_listing (query req !! "category") products →
  ∃ page' limit' data,
    response (serve uuid inc products) =
      {| status := 200;
         res_body :=
           BodyList (length (filtered_by (query req !! "category") products))
             page' limit' data |} ∧
    data `sublist_of` filtered_by (query req !! "category") products ∧
    (not_a_number (query req) "page" ∨ not_a_number (query req) "limit" →
     data = []) ∧
    (∀ limit,
       int_param (query req) "limit" 10 = Some limit →
       0 ≤ limit → limit ≤ max_safe →
       (length data ≤ Z.to_nat limit)%nat).
Proof.
  intros Hacc Hm Hp Hk Hascii.
  rewrite (serve_accepted uuid inc req products Hacc).
  rewrite (listing_response uuid req products Hm Hp Hk
             (ascii_listing_strings _ _ Hascii)).
  eexists _, _, _. split; [reflexivity|].
  split; [apply slice_sublist|]. split.
  - intros [Hnan | Hnan]; rewrite (not_a_number_param _ _ _ Hnan).
    + apply slice_not_numeric.
    + destruct (int_param (query req) "page" 1); apply slice_not_numeric.
  - intros limit -> Hl _.
    destruct (int_param (query req) "page" 1) as [page|].
    + cbn [num_sub num_mul num_add mbind option_bind].
      by apply slice_length_le.
    + rewrite slice_not_numeric. cbn [length]. lia.
Qed.

Lemma listing_page_bounds_witness :
  let products := [product "1" "Cap" "A"; product "2" "Hat" "B"] in
  let inc := {| in_method := GET; in_path := ["api"; "products"];
                in_key := Some "123456";
                in_query := {[ "category" := "a"; "page" := "x";
                               "limit" := "3" ]};
                in_body := Some ∅ |} in
  ∃ page' limit' data,
    response (serve "u" inc products) =
      {| status := 200;
         res_body :=
           BodyList (length (filtered_by (in_query inc !! "category") products))
             page' limit' data |} ∧
    data `sublist_of` filtered_by (in_query inc !! "category") products ∧
    (not_a_number (in_query inc) "page" ∨ not_a_number (in_query inc) "limit" →
     data = []) ∧
    (∀ limit,
       int_param (in_query inc) "limit" 10 = Some limit →
       0 ≤ limit → limit ≤ max_safe →
       (length data ≤ Z.to_nat limit)%nat).
Proof.
  intros products inc.
  apply (listing_page_bounds "u" inc _ products eq_refl); try reflexivity.
  intros c Hc. vm_compute in Hc. injection Hc as <-.
  split; [reflexivity|]. repeat constructor; by eexists.
Defined.

Lemma toLowerCase_empty s : toLowerCase s = "" ↔ s = "".
Proof. by destruct s. Qed.

Lemma filter_category_case c1 c2 (products : Store) :
  toLowerCase c1 = toLowerCase c2 →
  filter_category (Some c1) products = filter_category (Some c2) products.
Proof.
  intros Heq. unfold filter_category, truthy_str.
  destruct (String.eqb_spec c1 "") as [->|H1],
           (String.eqb_spec c2 "") as [->|H2]; [done| | |by rewrite Heq].
  - simpl in Heq. symmetry in Heq.
    apply (proj1 (toLowerCase_empty c2)) in Heq. congruence.
  - simpl in Heq. apply (proj1 (toLowerCase_empty c1)) in Heq. congruence.
Qed.

(** X12: two listings that differ only in the letter case of [category]
    get the same answer. *)
Theorem listing_category_case uuid req c1 c2 products :
  method req = GET → path req = ["api"; "products"] →
  x_api_key req = Some "123456" →
  query req !! "category" = Some c1 →
  toLowerCase c1 = toLowerCase c2 →
  handle uuid
    {| method := GET; path := path req; x_api_key := x_api_key req;
       query := <["category" := c2]> (query req); req_body := req_body req |}
    products =
  handle uuid req products.
Proof.
  intros Hm Hp Hk Hc Heq.
  rewrite (route_list uuid req products Hk Hm Hp).
  rewrite (route_list uuid _ products) by done.
  unfold listProducts, int_param. cbn [query].
  rewrite lookup_insert_eq, !lookup_insert_ne by done.
  by rewrite Hc, (filter_category_case c1 c2 products Heq).
Qed.

Lemma listing_category_case_witness :
  let products := [product "1" "Cap" "Hats"; product "2" "Tie" "Ties"] in
  let req := request GET ["api"; "products"] {[ "category" := "HATS" ]} ∅ in
  handle "u"
    {| method := GET; path := path req; x_api_key := x_api_key req;
       query := <["category" := "hAts"]> (query req);
       req_body := req_body req |}
    products =
  handle "u" req products.
Proof.
  intros products req.
  apply (listing_category_case "u" req "HATS" "hAts" products); reflexivity.
Defined.

Lemma filter_exn_throws {A} (f : A → exn bool) l :
  Exists (fun x => f x = Throw) l → filter_exn f l = Throw.
Proof.
  induction l as [|x l IH]; intros Hex; [by inversion Hex|].
  cbn [filter_exn]. destruct (f x) as [b|] eqn:Hx; [|done].
  apply Exists_cons in Hex as [Hex|Hex]; [congruence|].
  cbn [exn_bind]. by rewrite IH.
Qed.

Lemma call_toLowerCase_throws (p : gmap string JValue) :
  ¬ string_category p → call_toLowerCase (p !! "category") = Throw.
Proof.
  intros Hn. destruct (p !! "category") as [[]|] eqn:Hc; try done.
  destruct Hn. by eexists.
Qed.

(** X13: when some stored product has a category that is not a string (a
    number passes [validateProduct]), every listing with a non-empty
    [category] is answered 500 "Something went wrong", and the array is
    left as it was. *)
Theorem listing_fails_on_non_string_category uuid req products c :
  method req = GET → path req = ["api"; "products"] →
  x_api_key req = Some "123456" →
  query req !! "category" = Some c → c ≠ "" →
  Exists (fun p => ¬ string_category p) products →
  handle uuid req products =
  {| response := json_error 500 "Something went wrong";
     store := products;
     trace := [Authenticate; ListProducts] |}.
Proof.
  intros Hm Hp Hk Hc Hne Hex.
  rewrite (route_list uuid req products Hk Hm Hp).
  unfold listProducts, filter_category, truthy_str. rewrite Hc.
  apply String.eqb_neq in Hne. rewrite Hne.
  rewrite filter_exn_throws; [done|].
  eapply Exists_impl; [exact Hex|]. intros p Hp'. cbn beta.
  by rewrite (call_toLowerCase_throws p Hp').
Qed.

Lemma listing_fails_on_non_string_category_witness :
  let post := request POST ["api"; "products"] ∅
                (<["category" := JNum 5]> (fields "Hat" "A")) in
  let products := store (handle "uuid-1" post [product "1" "Cap" "A"]) in
  let req := request GET ["api"; "products"] {[ "category" := "A" ]} ∅ in
  length products = 2%nat ∧
  handle "u" req products =
  {| response := json_error 500 "Something went wrong";
     store := products;
     trace := [Authenticate; ListProducts] |}.
Proof.
  intros post products req. split; [reflexivity|].
  apply (listing_fails_on_non_string_category "u" req products "A");
    try reflexivity; try discriminate.
  apply Exists_cons_tl, Exists_cons_hd.
  intros [s Hs]. vm_compute in Hs. discriminate Hs.
Defined.

(** ** The search and stats handlers, when they run *)

Lemma filter_sublist {A} (f : A → bool) l : List.filter f l `sublist_of` l.
Proof.
  induction l as [|x l IH]; simpl; [constructor|].
  destruct (f x); by constructor.
Qed.

Lemma name_includes_spec q (p : gmap string JValue) :
  name_includes q p = true ↔
  ∃ s a b, p !! "name" = Some (JStr s) ∧
           toLowerCase s = (a ++ toLowerCase q ++ b)%string.
Proof.
  unfold name_includes. split.
  - destruct (p !! "name") as [[| | |s| |]|]; try done.
    intros (a & b & Hab)%includes_spec. by exists s, a, b.
  - intros (s & a & b & -> & Hab). apply includes_spec. by exists a, b.
Qed.

(** X14: the search handler, given a non-empty ASCII [q] and products
    whose names are ASCII strings, answers 200 with as [results] the
    products kept by [filter] in their order, each as often as it is
    stored, and as [count] their number; a product is kept exactly when
    the lowercased [q] occurs in its lowercased name. *)
Theorem search_handler_results req products q :
  query req !! "q" = Some q → q ≠ "" → ascii_only q = true →
  Forall ascii_name products →
  searchProducts req products =
    Respond {| status := 200;
               res_body :=
                 BodySearch (length (List.filter (name_includes q) products))
                   (List.filter (name_includes q) products) |}
            products ∧
  ∀ p, name_includes q p = true ↔
       ∃ s a b, p !! "name" = Some (JStr s) ∧
                toLowerCase s = (a ++ toLowerCase q ++ b)%string.
Proof.
  intros Hq Hne _ Hnames. split; [|intros p; apply name_includes_spec].
  apply searchProducts_results; [done | done |].
  eapply Forall_impl; [exact Hnames|]. intros p (s & Hs & _). by exists s.
Qed.

Lemma search_handler_results_witness :
  let products := [product "1" "Blue Shirt" "A"; product "2" "Hat" "A";
                   product "1" "Blue Shirt" "A"] in
  let req := request GET ["api"; "products"; "search"] {[ "q" := "SHIRT" ]} ∅ in
  searchProducts req products =
    Respond {| status := 200;
               res_body :=
                 BodySearch
                   (length (List.filter (name_includes "SHIRT") products))
                   (List.filter (name_includes "SHIRT") products) |}
            products ∧
  ∀ p, name_includes "SHIRT" p = true ↔
       ∃ s a b, p !! "name" = Some (JStr s) ∧
                toLowerCase s = (a ++ toLowerCase "SHIRT" ++ b)%string.
Proof.
  intros products req.
  apply (search_handler_results req products "SHIRT");
    [reflexivity | discriminate | reflexivity |].
  repeat constructor; by eexists.
Defined.

(** X15: the stats handler, given products whose categories are strings
    other than the names that [{}] inherits, answers 200 with a map that
    has, for every string, the number of products of exactly that category
    when there is one, and no entry when there is none. *)
Theorem stats_handler_counts (products : Store) :
  Forall plain_category products →
  ∃ stats,
    productStats products =
      Respond {| status := 200; res_body := BodyStats stats |} products ∧
    ∀ c, stats !! c =
         if count_in c products =? 0 then None
         else Some (count_in c products).
Proof.
  intros Hplain. apply productStats_counts.
  eapply Forall_impl; [exact Hplain|]. intros p (s & Hs & _). by exists s.
Qed.

Lemma stats_handler_counts_witness :
  let products := [product "1" "Cap" "A"; product "2" "Hat" "B";
                   product "3" "Tie" "A"] in
  ∃ stats,
    productStats products =
      Respond {| status := 200; res_body := BodyStats stats |} products ∧
    ∀ c, stats !! c =
         if count_in c products =? 0 then None
         else Some (count_in c products).
Proof.
  intros products. apply (stats_handler_counts products).
  repeat constructor; eexists; (split; [reflexivity|]);
    unfold inherited_keys; rewrite !elem_of_cons, elem_of_nil;
    intuition discriminate.
Defined.

(** ** Fetching by id *)

Lemma find_Some {A} (f : A → bool) l x :
  find f l = Some x → x ∈ l ∧ f x = true.
Proof.
  induction l as [|y l IH]; [done|]. simpl.
  destruct (f y) eqn:Hy.
  - intros [= <-]. split; [left | done].
  - intros H. destruct (IH H). split; [by right | done].
Qed.

Lemma find_None {A} (f : A → bool) l :
  find f l = None → Forall (fun x => f x = false) l.
Proof.
  induction l as [|y l IH]; [constructor|]. simpl.
  destruct (f y) eqn:Hy; [done|]. intros H. constructor; auto.
Qed.

(** X16: a GET of [/api/products/<id>] with the right key answers either
    200 with a stored product whose [id] is the string [id], or 404
    "Product not found", and the second exactly when no stored product
    has the string [id] as its [id]; the array is left as it was. *)
Theorem get_by_id_outcome uuid req products id :
  method req = GET → path req = ["api"; "products"; id] → id ≠ "" →
  x_api_key req = Some "123456" →
  store (handle uuid req products) = products ∧
  ((∃ p, response (handle uuid req products) =
           {| status := 200; res_body := BodyProduct p |} ∧
         p ∈ products ∧ p !! "id" = Some (JStr id)) ∨
   (response (handle uuid req products) =
      json_error 404 "Product not found" ∧
    Forall (fun p => p !! "id" ≠ Some (JStr id)) products)).
Proof.
  intros Hm Hp Hid Hk.
  rewrite (route_get_id uuid req products Hk id Hm Hp Hid).
  unfold getProduct. destruct (find _ products) as [p|] eqn:Hf.
  - split; [done|]. left. exists p. split; [done|].
    apply find_Some in Hf as [Hin Hp'].
    rewrite id_is_param in Hp'. by apply strict_eq_str_spec in Hp'.
  - split; [done|]. right. split; [done|].
    apply find_None in Hf. eapply Forall_impl; [exact Hf|].
    intros p Hp'. cbn beta in Hp'. rewrite id_is_param in Hp'.
    by apply strict_eq_str_false.
Qed.

Lemma get_by_id_outcome_witness :
  let products : Store :=
    [<["id" := JNum 7]> (fields "Cap" "A"); product "7" "Hat" "A"] in
  let req := request GET ["api"; "products"; "7"] ∅ ∅ in
  store (handle "u" req products) = products ∧
  ((∃ p, response (handle "u" req products) =
           {| status := 200; res_body := BodyProduct p |} ∧
         p ∈ products ∧ p !! "id" = Some (JStr "7")) ∨
   (response (handle "u" req products) =
      json_error 404 "Product not found" ∧
    Forall (fun p => p !! "id" ≠ Some (JStr "7")) products)).
Proof.
  intros products req.
  apply (get_by_id_outcome "u" req products "7");
    [reflexivity | reflexivity | discriminate | reflexivity].
Defined.

(** ** Sizes *)

(** X17: serving a request changes the number of stored products by at
    most one, and a GET or a PUT does not change it. *)
Theorem store_length uuid req products :
  (length (store (handle uuid req products)) ≤ length products + 1)%nat ∧
  (length products ≤ length (store (handle uuid req products)) + 1)%nat ∧
  (method req = GET ∨ method req = PUT →
   length (store (handle uuid req products)) = length products).
Proof.
  destruct (handle_effect uuid req products) as
    [resp t|resp t Hm _ _ _|id i resp t Hm _ _ _ _|id i resp t Hm _ Hi _];
    cbn [store].
  - split; [lia|]. split; [lia|done].
  - rewrite length_app. cbn [length].
    split; [lia|]. split; [lia|]. intros [|]; congruence.
  - rewrite length_insert. split; [lia|]. split; [lia|done].
  - apply findIndex_Some in Hi as (x & Hx & _).
    rewrite length_delete by (by exists x).
    apply lookup_lt_Some in Hx.
    split; [lia|]. split; [lia|]. intros [|]; congruence.
Qed.

(** ** Pages *)

Lemma page_of_next {A} (l : list A) (page limit : Z) :
  1 ≤ page → 0 ≤ limit →
  page_of page limit l ++ page_of (page + 1) limit l =
  take (Z.to_nat (2 * limit)) (drop (Z.to_nat ((page - 1) * limit)) l).
Proof.
  intros Hp Hl. unfold page_of.
  replace (Z.to_nat ((page + 1 - 1) * limit))
    with (Z.to_nat ((page - 1) * limit) + Z.to_nat limit)%nat by nia.
  rewrite <- drop_drop, take_take_drop. f_equal. lia.
Qed.

(** X18: two GETs of [/api/products] with the right key, whose bodies
    the JSON parser accepted, with the same category (ASCII, as are then
    the stored categories) and the same limit, for a page and for the page
    after it, where [1 <= page], [0 <= limit], [page + 1 <= max_safe] and
    [(page + 1) * limit <= max_safe]: their data put one after the other
    are the next [2 * limit] items of the filtered list from the start of
    the first page, so consecutive pages neither overlap nor skip a
    product. *)
Theorem listing_consecutive_pages uuid inc inc' req req' products page limit :
  accepted inc = Some req → accepted inc' = Some req' →
  method req = GET → path req = ["api"; "products"] →
  x_api_key req = Some "123456" →
  method req' = GET → path req' = ["api"; "products"] →
  x_api_key req' = Some "123456" →
  query req' !! "category" = query req !! "category" →
  ascii_listing (query req !! "category") products →
  int_param (query req) "page" 1 = Some page →
  int_param (query req') "page" 1 = Some (page + 1) →
  int_param (query req) "limit" 10 = Some limit →
  int_param (query req') "limit" 10 = Some limit →
  1 ≤ page → 0 ≤ limit →
  page + 1 ≤ max_safe → (page + 1) * limit ≤ max_safe →
  ∃ data data',
    res_body (response (serve uuid inc products)) =
      BodyList (length (filtered_by (query req !! "category") products))
        (Some page) (Some limit) data ∧
    res_body (response (serve uuid inc' products)) =
      BodyList (length (filtered_by (query req !! "category") products))
        (Some (page + 1)) (Some limit) data' ∧
    data ++ data' =
      take (Z.to_nat (2 * limit))
        (drop (Z.to_nat ((page - 1) * limit))
           (filtered_by (query req !! "category") products)).
Proof.
  intros Hacc Hacc' Hm Hp Hk Hm' Hp' Hk' Hc Hascii
    Hpage Hpage' Hlimit Hlimit' H1 H0 _ _.
  rewrite (serve_accepted uuid inc req products Hacc).
  rewrite (serve_accepted uuid inc' req' products Hacc').
  pose proof (ascii_listing_strings _ _ Hascii) as Hcat.
  rewrite (listing_response uuid req products Hm Hp Hk Hcat).
  rewrite (listing_response uuid req' products Hm' Hp' Hk')
    by (by rewrite Hc).
  rewrite Hc, Hpage, Hpage', Hlimit, Hlimit'.
  cbn [response res_body num_sub num_mul num_add mbind option_bind].
  rewrite !slice_from_count by nia.
  eexists _, _. split; [reflexivity|]. split; [reflexivity|].
  by apply page_of_next.
Qed.

Lemma listing_consecutive_pages_witness :
  let products := [product "1" "Cap" "A"; product "2" "Hat" "A";
                   product "3" "Tie" "A"; product "4" "Bag" "A"] in
  let inc := {| in_method := GET; in_path := ["api"; "products"];
                in_key := Some "123456";
                in_query := {[ "page" := "1"; "limit" := "2" ]};
                in_body := Some ∅ |} in
  let inc' := {| in_method := GET; in_path := ["api"; "products"];
                 in_key := Some "123456";
                 in_query := {[ "page" := "2"; "limit" := "2" ]};
                 in_body := Some ∅ |} in
  ∃ data data',
    res_body (response (serve "u" inc products)) =
      BodyList (length (filtered_by (in_query inc !! "category") products))
        (Some 1) (Some 2) data ∧
    res_body (response (serve "u" inc' products)) =
      BodyList (length (filtered_by (in_query inc !! "category") products))
        (Some (1 + 1)) (Some 2) data' ∧
    data ++ data' =
      take (Z.to_nat (2 * 2))
        (drop (Z.to_nat ((1 - 1) * 2))
           (filtered_by (in_query inc !! "category") products)).
Proof.
  intros products inc inc'.
  apply (listing_consecutive_pages "u" inc inc' _ _ products 1 2
           eq_refl eq_refl);
    try reflexivity; try (unfold max_safe; lia).
  intros c Hc. vm_compute in Hc. discriminate Hc.
Defined.
